(** * vox_nav_control: common.hpp

    A shallow embedding of the helper functions of
    [vox_nav_control/common.hpp] that prepare the per-tick input of the
    MPC controller, together with the properties of its specification.

    Conventions of the embedding.

    - A finite [double] (or [float]) is a rational number of [Q] and the
      four arithmetic operations are exact.  An operation that leaves
      the finite range has no value in this model: a division by zero
      (C++ yields an infinity or a NaN) and the conversion to [int] of a
      value that [int] cannot hold (undefined behaviour) are [None].
    - An [int] is a [Z] in the 32-bit range, a [size_t] a [Z] below
      [2^64]; the conversions between the two are written out.
    - An access outside a vector is undefined behaviour and is [None].
    - The lines of the window sizing are also given with the meanings
      an x86-64 build gives to what C++ leaves undefined there
      ([Platform]); the two transcriptions agree wherever the first has
      a value.
    - A decimal literal of the source stands for its decimal value
      ([0.4] is [4 # 10]).
    - The collaborators that live outside the header (the quaternion
      and distance helpers of [vox_nav_utilities], the crop box, the
      OMPL state space) are the fields of the class [Collaborators].
    - Publishing and logging are left out; what is published is part of
      the value returned where a property needs it. *)

From Stdlib Require Import String.
From Stdlib Require Import ZArith QArith Qabs Qround List Lia Bool.
From Stdlib Require Import Permutation Sorted.
Import ListNotations.

Local Open Scope Z_scope.

(** ** Scalars *)

Module Scalar.

Definition INT_MIN : Z := - 2 ^ 31.
Definition INT_MAX : Z := 2 ^ 31 - 1.
Definition SIZE_MOD : Z := 2 ^ 64.

Definition in_int (z : Z) : bool := (INT_MIN <=? z) && (z <=? INT_MAX).

(** [a < b] and [a > b] on doubles. *)
Definition Qlt_bool (a b : Q) : bool := negb (Qle_bool b a).

(** Truncation toward zero, the rounding of a floating-integral
    conversion. *)
Definition Qtrunc (q : Q) : Z := Z.quot (Qnum q) (Zpos (Qden q)).

(** [(int) d]: undefined when the truncated value is not an [int]. *)
Definition double_to_int (d : Q) : option Z :=
  let t := Qtrunc d in if in_int t then Some t else None.

(** [a / b] on doubles: no finite value when [b] is zero. *)
Definition double_div (a b : Q) : option Q :=
  if Qeq_bool b 0 then None else Some (a / b)%Q.

(** [a + b] on ints: signed overflow is undefined. *)
Definition int_add (a b : Z) : option Z :=
  if in_int (a + b) then Some (a + b) else None.

(** Conversion of an [int] to [size_t] (the usual arithmetic
    conversion of a mixed comparison) and back. *)
Definition to_size_t (z : Z) : Z := z mod SIZE_MOD.
Definition to_int (z : Z) : Z := (z - INT_MIN) mod 2 ^ 32 + INT_MIN.

(** [std::fmod x y] for a non-zero [y]: the remainder of the
    truncated quotient; it has the sign of [x]. *)
Definition fmod (x y : Q) : Q := (x - inject_Z (Qtrunc (x / y)) * y)%Q.

(** [M_PI], the double nearest to pi. *)
Definition M_PI : Q := 884279719003555 # 281474976710656.

End Scalar.
Import Scalar.

(** A small error monad for the undefined cases. *)
Definition obind {A B : Type} (c : option A) (k : A -> option B) : option B :=
  match c with Some a => k a | None => None end.

Notation "x <- c ;; k" := (obind c (fun x => k))
  (at level 61, c at next level, right associativity).
Notation "' p <- c ;; k" := (obind c (fun x => let p := x in k))
  (at level 61, p pattern, c at next level, right associativity).

(** [v[i]] for an [int] index. *)
Definition at_index {A : Type} (v : list A) (i : Z) : option A :=
  if i <? 0 then None else nth_error v (Z.to_nat i).

(** ** Messages and plain value types *)

Record Point := { px : Q; py : Q; pz : Q }.

Record Header := { stamp : Z; frame_id : string }.

Section Messages.

(** [geometry_msgs::msg::Quaternion]; only the helper
    [getRPYfromMsgQuaternion] looks inside it. *)
Variable Quaternion : Type.

Record Pose := { position : Point; orientation : Quaternion }.

Record PoseStamped := { pose_header : Header; pose : Pose }.

Record Path := { path_header : Header; poses : list PoseStamped }.

End Messages.

Arguments position {Quaternion} _.
Arguments orientation {Quaternion} _.
Arguments pose_header {Quaternion} _.
Arguments pose {Quaternion} _.
Arguments path_header {Quaternion} _.
Arguments poses {Quaternion} _.
Arguments Build_Pose {Quaternion} _ _.
Arguments Build_PoseStamped {Quaternion} _ _.
Arguments Build_Path {Quaternion} _ _.

(** [enum STATE_ENUM] and [enum INPUT_ENUM]. *)
Inductive STATE_ENUM := kX | kY | kPsi | kV | kObs.
Inductive INPUT_ENUM := kacc | kdf.

Definition STATE_ENUM_value (s : STATE_ENUM) : Z :=
  match s with kX => 0 | kY => 1 | kPsi => 2 | kV => 3 | kObs => 4 end.

Definition INPUT_ENUM_value (i : INPUT_ENUM) : Z :=
  match i with kacc => 0 | kdf => 1 end.

(** [struct Ellipsoid] and the value its constructor gives. *)
Record Ellipsoid := {
  center : Q * Q;
  axes : Q * Q;
  ellipsoid_is_dynamic : bool;
  heading : Q;
  heading_to_robot_angle : Q
}.

Definition Ellipsoid_default : Ellipsoid :=
  {| center := (1000, 1000)%Q; axes := (1 # 10, 1 # 10)%Q;
     ellipsoid_is_dynamic := false; heading := 0;
     heading_to_robot_angle := 0 |}.

(** [struct States]; its constructor sets every field to zero. *)
Record States := { x : Q; y : Q; z : Q; psi : Q; v : Q }.

(** [struct ControlInput]. *)
Record ControlInput := { acc : Q; df : Q }.

(** [struct Parameters].  The weight vectors [Q] and [R] of the source
    are [Q_weights] and [R_weights] here. *)
Record Parameters := {
  N : Z;
  DT : Q;
  L_F : Q;
  L_R : Q;
  V_MIN : Q;
  V_MAX : Q;
  A_MIN : Q;
  A_MAX : Q;
  DF_MIN : Q;
  DF_MAX : Q;
  A_DOT_MIN : Q;
  A_DOT_MAX : Q;
  DF_DOT_MIN : Q;
  DF_DOT_MAX : Q;
  Q_weights : list Q;
  R_weights : list Q;
  debug_mode : bool;
  params_configured : bool;
  max_obstacles : Z;
  robot_radius : Q;
  obstacle_cost : Q;
  full_ackerman : bool
}.

(** The values given by the constructor [Parameters ()], for a horizon
    [N] of [horizon] (the constructor sets 10). *)
Definition Parameters_with_horizon (horizon : Z) : Parameters :=
  {| N := horizon; DT := 1 # 10; L_F := 65 # 100; L_R := 65 # 100;
     V_MIN := - (10); V_MAX := 10; A_MIN := - (1); A_MAX := 1;
     DF_MIN := - (1 # 2); DF_MAX := 1 # 2;
     A_DOT_MIN := - (1); A_DOT_MAX := 1;
     DF_DOT_MIN := - (1 # 2); DF_DOT_MAX := 1 # 2;
     Q_weights := [100; 100; 10; 1 # 10]; R_weights := [10; 10];
     debug_mode := true; params_configured := false;
     max_obstacles := 1; robot_radius := 1 # 2; obstacle_cost := 1;
     full_ackerman := false |}%Q.

(** A state of the SE(2) state space of OMPL: [getX], [getY], [getYaw]. *)
Record SE2State := { getX : Q; getY : Q; getYaw : Q }.

(** [pcl::PointXYZ]. *)
Record PointXYZ := { cx : Q; cy : Q; cz : Q }.

(** [Eigen::Vector4f], the corner of a crop box. *)
Record Vector4f := { v0 : Q; v1 : Q; v2 : Q; v3 : Q }.

(** ** Collaborators *)

Class Collaborators (Quaternion : Type) := {
  (** orientation of a default-constructed pose message *)
  default_orientation : Quaternion;
  (** [vox_nav_utilities::getRPYfromMsgQuaternion]: roll, pitch, yaw *)
  getRPYfromMsgQuaternion : Quaternion -> Q * Q * Q;
  (** [vox_nav_utilities::getEuclidianDistBetweenPoses] *)
  getEuclidianDistBetweenPoses :
    PoseStamped Quaternion -> PoseStamped Quaternion -> Q;
  (** [vox_nav_utilities::getEuclidianDistBetweenPoints] *)
  getEuclidianDistBetweenPoints : Point -> Point -> Q;
  (** [vox_nav_utilities::cropBox] *)
  cropBox : list PointXYZ -> Vector4f -> Vector4f -> list PointXYZ;
  (** [ompl::base::SpaceInformation::distance] *)
  si_distance : SE2State -> SE2State -> Q;
  (** [ompl::base::StateSpace::interpolate] at parameter [t] *)
  ss_interpolate : SE2State -> SE2State -> Q -> SE2State
}.

Definition yaw_of {Quaternion} `{Collaborators Quaternion} (q : Quaternion) : Q :=
  snd (getRPYfromMsgQuaternion q).

(** ** nearestStateIndex *)

Section NearestState.

Context {Quaternion : Type} `{C : Collaborators Quaternion}.

(** The loop of [nearestStateIndex] from index [i] on.  The
    accumulator [closest_state_distance] is declared [int]: the
    comparison converts it to double, the assignment truncates the
    distance.  (A distance is not negative and is below the
    accumulator when it is stored, so this conversion is always
    defined.) *)
Fixpoint nearest_scan (ps : list (PoseStamped Quaternion))
    (curr_robot_pose : PoseStamped Quaternion)
    (i closest_state_index closest_state_distance : Z) : Z :=
  match ps with
  | [] => closest_state_index
  | p :: rest =>
      let curr_distance := getEuclidianDistBetweenPoses p curr_robot_pose in
      if Qlt_bool curr_distance (inject_Z closest_state_distance)
      then nearest_scan rest curr_robot_pose (i + 1) i (Qtrunc curr_distance)
      else nearest_scan rest curr_robot_pose (i + 1)
             closest_state_index closest_state_distance
  end.

Definition nearestStateIndex (reference_traj : Path Quaternion)
    (curr_robot_pose : PoseStamped Quaternion) : Z :=
  nearest_scan (poses reference_traj) curr_robot_pose 0 (-1) 10000.

End NearestState.

(** ** OMPL: PathGeometric::interpolate

    The reference states are produced by [ompl::geometric::PathGeometric],
    an external library; its resampling algorithm is transcribed here
    over the two state-space primitives of [Collaborators]. *)

Section PathGeometric.

Context {Quaternion : Type} `{C : Collaborators Quaternion}.

(** [SpaceInformation::getMotionStates s1 s2 block count false true]:
    [count] fresh states strictly between [s1] and [s2], the [j]-th
    at parameter [j / (count + 1)]. *)
Definition getMotionStates (s1 s2 : SE2State) (count : Z) : list SE2State :=
  map (fun j => ss_interpolate s1 s2
                  (inject_Z (Z.of_nat j) / inject_Z (count + 1))%Q)
      (seq 1 (Z.to_nat count)).

(** [PathGeometric::length]. *)
Fixpoint geometric_length (states : list SE2State) : Q :=
  match states with
  | s1 :: ((s2 :: _) as tl) => (si_distance s1 s2 + geometric_length tl)%Q
  | _ => 0%Q
  end.

(** The loop of [interpolate] over the segments, from segment [i].
    [count] is what is left of the request, [size] the number of
    states of the path.  (The quotient by [remainingLength] is only
    evaluated on a segment that is not the last one.) *)
Fixpoint interpolate_from (states : list SE2State) (i size count : Z)
    (remainingLength : Q) : list SE2State :=
  match states with
  | s1 :: ((s2 :: _) as tl) =>
      let maxNStates := count + i - size in
      if 0 <? maxNStates then
        let segmentLength := si_distance s1 s2 in
        let ns :=
          if i + 1 =? size - 1 then maxNStates + 2
          else Qfloor ((1 # 2) + inject_Z count * segmentLength
                                 / remainingLength)%Q + 1 in
        if 2 <? ns then
          let ns := Z.min (ns - 2) maxNStates in
          s1 :: getMotionStates s1 s2 ns
             ++ interpolate_from tl (i + 1) size (count - (ns + 1))
                  (remainingLength - segmentLength)%Q
        else
          s1 :: interpolate_from tl (i + 1) size (count - 1)
                  (remainingLength - segmentLength)%Q
      else
        s1 :: interpolate_from tl (i + 1) size (count - 1) remainingLength
  | _ => states
  end.

(** [path.interpolate(requestCount)]: a request smaller than the
    path, or a path of fewer than two states, leaves the path as it
    is. *)
Definition interpolate (states : list SE2State) (requestCount : Z)
    : list SE2State :=
  let size := Z.of_nat (length states) in
  if (requestCount <? size) || (size <? 2) then states
  else interpolate_from states 0 size requestCount (geometric_length states).

End PathGeometric.

(** ** getLocalInterpolatedReferenceStates *)

Section ReferenceStates.

Context {Quaternion : Type} `{C : Collaborators Quaternion}.

(** The sum of the distances between consecutive poses: the loop
    [for (i = 1; i < size; i++) length += dist(poses[i], poses[i-1])]. *)
Fixpoint path_length_from (prev : PoseStamped Quaternion)
    (rest : list (PoseStamped Quaternion)) (acc : Q) : Q :=
  match rest with
  | [] => acc
  | p :: rest' =>
      path_length_from p rest' (acc + getEuclidianDistBetweenPoses p prev)%Q
  end.

Definition path_euclidian_length (ps : list (PoseStamped Quaternion)) : Q :=
  match ps with
  | [] => 0%Q
  | p0 :: rest => path_length_from p0 rest 0%Q
  end.

Definition path_size (reference_traj : Path Quaternion) : Z :=
  Z.of_nat (length (poses reference_traj)).

(** [interpolation_step_size = path_euclidian_length / poses.size()]. *)
Definition interpolation_step_size (reference_traj : Path Quaternion)
    : option Q :=
  double_div (path_euclidian_length (poses reference_traj))
             (inject_Z (path_size reference_traj)).

(** [int states_to_see_horizon = look_ahead / interpolation_step_size]. *)
Definition states_to_see_horizon (reference_traj : Path Quaternion)
    (global_plan_look_ahead_distance : Q) : option Z :=
  step <- interpolation_step_size reference_traj ;;
  q <- double_div global_plan_look_ahead_distance step ;;
  double_to_int q.

(** The clamp [if (index >= size - 1) index = size - 1]: the
    comparison is made in [size_t], the assignment converts back. *)
Definition clamp_to_last (size local_goal_state_index : Z) : Z :=
  if to_size_t (size - 1) <=? to_size_t local_goal_state_index
  then to_int (to_size_t (size - 1))
  else local_goal_state_index.

(** The window sizing: the local-goal index for a given nearest
    index. *)
Definition localGoalStateIndex (nearsest_traj_state_index : Z)
    (reference_traj : Path Quaternion)
    (global_plan_look_ahead_distance : Q) : option Z :=
  horizon <- states_to_see_horizon reference_traj
               global_plan_look_ahead_distance ;;
  local_goal_state_index <- int_add nearsest_traj_state_index horizon ;;
  Some (clamp_to_last (path_size reference_traj) local_goal_state_index).

(** The OMPL state fed from a pose: planar position and yaw. *)
Definition se2_of_pose (p : PoseStamped Quaternion) : SE2State :=
  {| getX := px (position (pose p));
     getY := py (position (pose p));
     getYaw := yaw_of (orientation (pose p)) |}.

(** The two states appended to the OMPL path before it is
    interpolated.  ([front_axle_pose], computed at the top of the
    function, is never read and is left out.) *)
Definition localAnchors (curr_robot_pose : PoseStamped Quaternion)
    (mpc_parameters : Parameters) (reference_traj : Path Quaternion)
    (global_plan_look_ahead_distance : Q) : option (list SE2State) :=
  let nearsest_traj_state_index :=
    nearestStateIndex reference_traj curr_robot_pose in
  local_goal_state_index <-
    localGoalStateIndex nearsest_traj_state_index reference_traj
      global_plan_look_ahead_distance ;;
  closest_ref_traj_state <-
    (if local_goal_state_index - nearsest_traj_state_index
          <? N mpc_parameters
     then Some (se2_of_pose curr_robot_pose)
     else p <- at_index (poses reference_traj) nearsest_traj_state_index ;;
          Some (se2_of_pose p)) ;;
  goal <- at_index (poses reference_traj) local_goal_state_index ;;
  Some [closest_ref_traj_state; se2_of_pose goal].

(** The native MPC state filled from an interpolated state. *)
Definition to_States (mpc_parameters : Parameters) (s : SE2State) : States :=
  {| x := getX s; y := getY s; z := 0; psi := getYaw s;
     v := V_MAX mpc_parameters |}.

(** [unsigned int requestCount] receives the [int] horizon. *)
Definition to_uint (n : Z) : Z := n mod 2 ^ 32.

Definition getLocalInterpolatedReferenceStates
    (curr_robot_pose : PoseStamped Quaternion)
    (mpc_parameters : Parameters) (reference_traj : Path Quaternion)
    (global_plan_look_ahead_distance : Q) : option (list States) :=
  path <- localAnchors curr_robot_pose mpc_parameters reference_traj
            global_plan_look_ahead_distance ;;
  Some (map (to_States mpc_parameters)
            (interpolate path (to_uint (N mpc_parameters)))).

End ReferenceStates.

(** ** trimObstaclesToN *)

(** [shape_msgs::msg::SolidPrimitive]. *)
Record SolidPrimitive := { type : Z; dimensions : list Q }.

Definition BOX : Z := 1.

Section Obstacles.

Context {Quaternion : Type} `{C : Collaborators Quaternion}.

(** Modelled from the spec: the message type [vox_nav_msgs::msg::Object]
    is declared outside the header; an obstacle record is a pose, a
    shape descriptor and a dynamic flag, to which the track [id] is
    added. *)
Record Object := {
  id : Z;
  obj_pose : Pose Quaternion;
  shape : SolidPrimitive;
  is_dynamic : bool
}.

(** A default-constructed message. *)
Definition default_object : Object :=
  {| id := 0;
     obj_pose := {| position := {| px := 0; py := 0; pz := 0 |};
                    orientation := default_orientation |};
     shape := {| type := 0; dimensions := [] |};
     is_dynamic := false |}.

(** The obstacle built in the padding loop. *)
Definition ghost_obstacle : Object :=
  {| id := 0;
     obj_pose := {| position := {| px := 20000; py := 20000; pz := 20000 |};
                    orientation := default_orientation |};
     shape := {| type := BOX;
                 dimensions := [(1 # 10)%Q; (1 # 10)%Q; (1 # 10)%Q] |};
     is_dynamic := false |}.

(** [std::sort] of a vector of indices under a strict comparator,
    as an insertion sort that leaves equivalent elements in the order
    they had (what the library does on a short vector; the standard
    leaves that order open). *)
Fixpoint insert_by (lt : Z -> Z -> bool) (a : Z) (l : list Z) : list Z :=
  match l with
  | [] => [a]
  | b :: l' => if lt b a then b :: insert_by lt a l' else a :: b :: l'
  end.

Definition std_sort (lt : Z -> Z -> bool) (l : list Z) : list Z :=
  fold_right (insert_by lt) [] l.

(** [std::iota (begin, end, 0)] over a vector of [n] elements. *)
Definition iota (n : nat) : list Z := map Z.of_nat (seq 0 n).

(** The distance of an obstacle to the robot. *)
Definition distance_to (curr_robot_pose : PoseStamped Quaternion)
    (obs : Object) : Q :=
  getEuclidianDistBetweenPoints (position (obj_pose obs))
    (position (pose curr_robot_pose)).

(** The vector [distances], filled in the order of the obstacles. *)
Definition obstacle_distances (objects : list Object)
    (curr_robot_pose : PoseStamped Quaternion) : list Q :=
  map (distance_to curr_robot_pose) objects.

(** [distances[a]] for an index [a] of the vector. *)
Definition distance_at (distances : list Q) (a : Z) : Q :=
  nth (Z.to_nat a) distances 0%Q.

(** The lambda [[&distances](int a, int b)
    {return distances[a] < distances[b];}]. *)
Definition comparator (distances : list Q) (a b : Z) : bool :=
  Qlt_bool (distance_at distances a) (distance_at distances b).

Definition sorted_indices (distances : list Q) : list Z :=
  std_sort (comparator distances) (iota (length distances)).

(** The order the comparator sorts the indices into. *)
Definition le_distance (distances : list Q) (a b : Z) : Prop :=
  (distance_at distances a <= distance_at distances b)%Q.

(** The two objects the function works on: the argument, passed by
    const reference, and the copy it returns. *)
Record TrimStore := {
  obstacle_tracks : list Object;
  trimmed_N_obstacles : list Object
}.

Definition push_back (st : TrimStore) (o : Object) : TrimStore :=
  {| obstacle_tracks := obstacle_tracks st;
     trimmed_N_obstacles := trimmed_N_obstacles st ++ [o] |}.

Fixpoint push_ghosts (n : nat) (st : TrimStore) : TrimStore :=
  match n with
  | O => st
  | S n' => push_ghosts n' (push_back st ghost_obstacle)
  end.

(** [clear (); resize (n)] then [objects[i] = tracks[sorted[i]]] for
    every [i < n]; the indices read are all inside their vectors since
    this branch has [n <= size]. *)
Definition keep_nearest (n : nat) (sorted : list Z) (st : TrimStore)
    : TrimStore :=
  {| obstacle_tracks := obstacle_tracks st;
     trimmed_N_obstacles :=
       map (fun i => nth (Z.to_nat (nth i sorted 0))
                         (obstacle_tracks st) default_object)
           (seq 0 n) |}.

Definition trim_run (objects : list Object)
    (curr_robot_pose : PoseStamped Quaternion) (N : Z) : TrimStore :=
  let st := {| obstacle_tracks := objects; trimmed_N_obstacles := objects |} in
  let size := Z.of_nat (length objects) in
  if size <? to_size_t N then
    push_ghosts (Z.to_nat (to_size_t (to_size_t N - size))) st
  else
    keep_nearest (Z.to_nat (to_size_t N))
      (sorted_indices (obstacle_distances objects curr_robot_pose)) st.

Definition trimObstaclesToN (objects : list Object)
    (curr_robot_pose : PoseStamped Quaternion) (N : Z) : list Object :=
  trimmed_N_obstacles (trim_run objects curr_robot_pose N).

End Obstacles.

Arguments Object Quaternion : clear implicits.
Arguments TrimStore Quaternion : clear implicits.

(** ** regulateMaxSpeed *)

Record Vector3 := { vx : Q; vy : Q; vz : Q }.

(** [geometry_msgs::msg::Twist]. *)
Record Twist := { linear : Vector3; angular : Vector3 }.

Definition set_linear_x (t : Twist) (value : Q) : Twist :=
  {| linear := {| vx := value; vy := vy (linear t); vz := vz (linear t) |};
     angular := angular t |}.

(** The twist is passed by reference; the embedding returns its value
    after the call. *)
Definition regulateMaxSpeed (computed_velocity : Twist)
    (mpc_parameters : Parameters) : Twist :=
  if Qlt_bool (V_MAX mpc_parameters) (vx (linear computed_velocity)) then
    set_linear_x computed_velocity (V_MAX mpc_parameters)
  else if Qlt_bool (vx (linear computed_velocity)) (V_MIN mpc_parameters) then
    set_linear_x computed_velocity (V_MIN mpc_parameters)
  else computed_velocity.

(** ** readjustGlobalPlanLocally *)

(** [slice (v, m, n)]: the elements [v[m] .. v[n]]; the iterators
    [begin + m] and [begin + n + 1] must delimit a range of [v]. *)
Definition slice {A : Type} (v : list A) (m n : Z) : option (list A) :=
  if (m <? 0) || (Z.of_nat (length v) <? n + 1) || (n + 1 <? m) then None
  else Some (firstn (Z.to_nat (n + 1 - m)) (skipn (Z.to_nat m) v)).

(** [v[i] = a] on a valid index. *)
Definition assign {A : Type} (v : list A) (i : Z) (a : A) : list A :=
  firstn (Z.to_nat i) v ++ a :: skipn (S (Z.to_nat i)) v.

(** [pcl::computeCentroid (cloud, center)]: the mean of the points is
    written to [center]; with no point, [center] is left as it was. *)
Definition computeCentroid (cloud : list PointXYZ) (center : PointXYZ)
    : PointXYZ :=
  match cloud with
  | [] => center
  | _ =>
      let n := inject_Z (Z.of_nat (length cloud)) in
      {| cx := fold_right (fun p s => cx p + s) 0 cloud / n;
         cy := fold_right (fun p s => cy p + s) 0 cloud / n;
         cz := fold_right (fun p s => cz p + s) 0 cloud / n |}%Q
  end.

(** A default-constructed [pcl::PointXYZ]. *)
Definition PointXYZ_default : PointXYZ := {| cx := 0; cy := 0; cz := 0 |}.

Section RowAlignment.

Context {Quaternion : Type} `{C : Collaborators Quaternion}.

(** What the call leaves behind: the path, passed by reference, and
    the states handed to [publishTrajStates] (none when the call
    returns early). *)
Record Readjusted := {
  traj_after : Path Quaternion;
  readjusted_states : option (list States)
}.

(** The test of the alignment loop on one pose of the slice. *)
Definition not_in_row (p : PoseStamped Quaternion) : bool :=
  let yaw := yaw_of (orientation (pose p)) in
  let segment_orientation := fmod yaw M_PI in
  Qlt_bool (4 # 10) (Qabs segment_orientation).

(** The corners of the crop box. *)
Definition crop_corners (robot_yaw : Q) (near goal : PoseStamped Quaternion)
    (inflate_y_cropping inflate_z_cropping : Q) : Vector4f * Vector4f :=
  let lo p := {| v0 := px (position (pose p));
                 v1 := py (position (pose p)) - inflate_y_cropping;
                 v2 := pz (position (pose p)) - inflate_z_cropping;
                 v3 := 1 |}%Q in
  let hi p := {| v0 := px (position (pose p));
                 v1 := py (position (pose p)) + inflate_y_cropping;
                 v2 := pz (position (pose p)) + inflate_z_cropping;
                 v3 := 1 |}%Q in
  if Qlt_bool (Qabs robot_yaw) (4 # 10) then (lo near, hi goal)
  else (lo goal, hi near).

(** The live cloud cropped to the box, and its centroid written to
    the default-constructed [center]. *)
Definition cropped_centroid (robot_yaw : Q)
    (near goal : PoseStamped Quaternion)
    (inflate_y_cropping inflate_z_cropping : Q)
    (pcl_curr : list PointXYZ) : PointXYZ :=
  let '(min, max) :=
    crop_corners robot_yaw near goal
      inflate_y_cropping inflate_z_cropping in
  let croppped_live_cloud := cropBox pcl_curr min max in
  computeCentroid croppped_live_cloud PointXYZ_default.

(** The body of the last loop on one pose: the offsets to the
    centroid are subtracted from [y] and [z]. *)
Definition recenter (center : PointXYZ) (p : PoseStamped Quaternion)
    : PoseStamped Quaternion :=
  let position := position (pose p) in
  let dy := (py position - cy center)%Q in
  let dz := (pz position - cz center)%Q in
  {| pose_header := pose_header p;
     pose := {| position := {| px := px position;
                               py := (py position - dy)%Q;
                               pz := (pz position - dz)%Q |};
                orientation := orientation (pose p) |} |}.

Definition state_of_pose (p : PoseStamped Quaternion) : States :=
  {| x := px (position (pose p));
     y := py (position (pose p));
     z := pz (position (pose p));
     psi := yaw_of (orientation (pose p));
     v := 0 |}.

(** [for (i = nearest; i < local_goal + 1; i++)] with [count]
    iterations left. *)
Fixpoint recenter_loop (count : nat) (i : Z) (center : PointXYZ)
    (ps : list (PoseStamped Quaternion)) (states : list States)
    : option (list (PoseStamped Quaternion) * list States) :=
  match count with
  | O => Some (ps, states)
  | S count' =>
      p <- at_index ps i ;;
      let p' := recenter center p in
      recenter_loop count' (i + 1) center (assign ps i p')
        (states ++ [state_of_pose p'])
  end.

(** The local-goal index of the corrector: here the clamp compares
    with [>]. *)
Definition readjust_goal_index (size nearsest_traj_state_index
    look_ahead_waypints : Z) : option Z :=
  local_goal_state_index <-
    int_add nearsest_traj_state_index look_ahead_waypints ;;
  Some (if to_size_t (size - 1) <? to_size_t local_goal_state_index
        then to_int (to_size_t (size - 1))
        else local_goal_state_index).

Definition readjustGlobalPlanLocally
    (curr_robot_pose : PoseStamped Quaternion)
    (pcl_curr : list PointXYZ)
    (reference_traj : Path Quaternion)
    (inflate_y_cropping inflate_z_cropping : Q)
    (look_ahead_waypints : Z) : option Readjusted :=
  let robot_yaw := yaw_of (orientation (pose curr_robot_pose)) in
  let nearsest_traj_state_index :=
    nearestStateIndex reference_traj curr_robot_pose in
  local_goal_state_index <-
    readjust_goal_index (path_size reference_traj)
      nearsest_traj_state_index look_ahead_waypints ;;
  poses_in_vicinity <-
    slice (poses reference_traj) nearsest_traj_state_index
      local_goal_state_index ;;
  if existsb not_in_row poses_in_vicinity then
    Some {| traj_after := reference_traj; readjusted_states := None |}
  else
    near <- at_index (poses reference_traj) nearsest_traj_state_index ;;
    goal <- at_index (poses reference_traj) local_goal_state_index ;;
    let center :=
      cropped_centroid robot_yaw near goal
        inflate_y_cropping inflate_z_cropping pcl_curr in
    '(ps, states) <-
      recenter_loop
        (Z.to_nat (local_goal_state_index + 1 - nearsest_traj_state_index))
        nearsest_traj_state_index center (poses reference_traj) [] ;;
    Some {| traj_after := {| path_header := path_header reference_traj;
                             poses := ps |};
            readjusted_states := Some states |}.

End RowAlignment.

Arguments Readjusted Quaternion : clear implicits.

(** The distance the loop of [nearestStateIndex] computes for a pose. *)
Definition distance_from_robot {Quaternion : Type}
    `{C : Collaborators Quaternion}
    (robot p : PoseStamped Quaternion) : Q :=
  getEuclidianDistBetweenPoses p robot.

(** ** publishTrajStates *)

(** [std_msgs::msg::ColorRGBA]. *)
Record ColorRGBA := { color_r : Q; color_g : Q; color_b : Q; color_a : Q }.

(** [visualization_msgs::msg::Marker::ARROW] and [ADD]. *)
Definition ARROW : Z := 0.
Definition ADD : Z := 0.

Section TrajMarkers.

Context {Quaternion : Type} `{C : Collaborators Quaternion}.

(** [visualization_msgs::msg::Marker]: the fields the function sets. *)
Record Marker := {
  marker_frame_id : string;
  marker_stamp : Z;
  marker_ns : string;
  marker_id : Z;
  marker_type : Z;
  marker_action : Z;
  marker_lifetime : Q;
  marker_pose : Pose Quaternion;
  marker_scale : Vector3;
  marker_color : ColorRGBA
}.

(** [vox_nav_utilities::getMsgQuaternionfromRPY], and the reading of
    the clock made in the iteration of a given index. *)
Variable getMsgQuaternionfromRPY : Q -> Q -> Q -> Quaternion.
Variable clock_now : Z -> Z.

(** The body of the loop for the state of index [i]: a state at
    height zero is drawn at height 1.3. *)
Definition marker_of_state (color : ColorRGBA) (ns : string) (i : Z)
    (s : States) : Marker :=
  {| marker_frame_id := "map";
     marker_stamp := clock_now i;
     marker_ns := ns;
     marker_id := i;
     marker_type := ARROW;
     marker_action := ADD;
     marker_lifetime := 0;
     marker_pose :=
       {| position :=
            {| px := x s;
               py := y s;
               pz := if Qeq_bool (z s) 0 then (13 # 10)%Q else z s |};
          orientation := getMsgQuaternionfromRPY 0 0 (psi s) |};
     marker_scale := {| vx := 25 # 100; vy := 1 # 10; vz := 1 # 10 |};
     marker_color := color |}.

(** The loop from index [i] on. *)
Fixpoint markers_from (states : list States) (color : ColorRGBA)
    (ns : string) (i : Z) : list Marker :=
  match states with
  | [] => []
  | s :: rest =>
      marker_of_state color ns i s :: markers_from rest color ns (i + 1)
  end.

(** The marker array handed to the publisher. *)
Definition publishTrajStates (interpolated_reference_states : list States)
    (color : ColorRGBA) (ns : string) : list Marker :=
  markers_from interpolated_reference_states color ns 0.

End TrajMarkers.

Arguments Marker Quaternion : clear implicits.

(** ** The window sizing as an x86-64 build runs it

    The C++ standard gives no meaning to the conversion to [int] of an
    infinity, of a NaN or of a value out of range, nor to a signed
    overflow.  An x86-64 build does run them: the division follows
    IEEE 754, the conversion ([cvttsd2si]) yields the value
    [0x80000000], that is [INT_MIN], in each of these cases, and the
    addition wraps.  The lines of the window sizing are transcribed a
    second time with these meanings.  (The divisor zero met here is a
    sum of distances over a count, hence a positive zero.) *)

Module Platform.

(** A double: finite, an infinity with its sign, or a NaN. *)
Inductive xdouble := Finite (q : Q) | Infinite (negative : bool) | NaN.

Definition is_negative (q : Q) : bool := Qlt_bool q 0.

(** [a / b] of IEEE 754. *)
Definition xdiv (a b : xdouble) : xdouble :=
  match a, b with
  | NaN, _ => NaN
  | _, NaN => NaN
  | Infinite _, Infinite _ => NaN
  | Infinite s, Finite q => Infinite (xorb s (is_negative q))
  | Finite _, Infinite _ => Finite 0
  | Finite p, Finite q =>
      if Qeq_bool q 0
      then if Qeq_bool p 0 then NaN else Infinite (is_negative p)
      else Finite (p / q)%Q
  end.

(** [(int) d] as [cvttsd2si] computes it. *)
Definition double_to_int (d : xdouble) : Z :=
  match d with
  | Finite q => if in_int (Qtrunc q) then Qtrunc q else INT_MIN
  | _ => INT_MIN
  end.

(** [a + b] on ints, wrapping. *)
Definition int_add (a b : Z) : Z := to_int (a + b).

Section Window.

Context {Quaternion : Type} `{C : Collaborators Quaternion}.

Definition interpolation_step_size (reference_traj : Path Quaternion)
    : xdouble :=
  xdiv (Finite (path_euclidian_length (poses reference_traj)))
       (Finite (inject_Z (path_size reference_traj))).

(** The quotient that is converted to [int]. *)
Definition horizon_quotient (reference_traj : Path Quaternion)
    (global_plan_look_ahead_distance : Q) : xdouble :=
  xdiv (Finite global_plan_look_ahead_distance)
       (interpolation_step_size reference_traj).

Definition states_to_see_horizon (reference_traj : Path Quaternion)
    (global_plan_look_ahead_distance : Q) : Z :=
  double_to_int
    (horizon_quotient reference_traj global_plan_look_ahead_distance).

Definition localGoalStateIndex (nearsest_traj_state_index : Z)
    (reference_traj : Path Quaternion)
    (global_plan_look_ahead_distance : Q) : Z :=
  clamp_to_last (path_size reference_traj)
    (int_add nearsest_traj_state_index
       (states_to_see_horizon reference_traj
          global_plan_look_ahead_distance)).

End Window.

End Platform.

(** ** A planar instance of the collaborators

    Used to run the functions on concrete inputs. *)

Module Planar.

Local Open Scope Q_scope.

(** A planar orientation is given by its heading; roll and pitch are
    zero. *)
Definition Heading : Type := Q.

(** The square root rounded down to a multiple of [2^-52]. *)
Definition Qsqrt (q : Q) : Q :=
  Qmake (Z.sqrt (Qnum q * 2 ^ 104 / Zpos (Qden q))) (2 ^ 52).

(** Modelled from the spec: the distance helpers of
    [vox_nav_utilities] are not part of the header; the distance
    between two poses is the Euclidean planar distance. *)
Definition planar_distance (a b : Point) : Q :=
  Qsqrt ((px a - px b) * (px a - px b) + (py a - py b) * (py a - py b)).

Definition inside (lo hi : Vector4f) (p : PointXYZ) : bool :=
  Qle_bool (v0 lo) (cx p) && Qle_bool (cx p) (v0 hi) &&
  Qle_bool (v1 lo) (cy p) && Qle_bool (cy p) (v1 hi) &&
  Qle_bool (v2 lo) (cz p) && Qle_bool (cz p) (v2 hi).

Definition straight_line (s1 s2 : SE2State) (t : Q) : SE2State :=
  {| getX := getX s1 + t * (getX s2 - getX s1);
     getY := getY s1 + t * (getY s2 - getY s1);
     getYaw := getYaw s1 + t * (getYaw s2 - getYaw s1) |}.

#[global] Instance collaborators : Collaborators Heading := {|
  default_orientation := 0;
  getRPYfromMsgQuaternion := fun h => (0, 0, h);
  getEuclidianDistBetweenPoses :=
    fun a b => planar_distance (position (pose a)) (position (pose b));
  getEuclidianDistBetweenPoints := planar_distance;
  cropBox := fun cloud lo hi => filter (inside lo hi) cloud;
  si_distance :=
    fun s1 s2 =>
      Qsqrt ((getX s1 - getX s2) * (getX s1 - getX s2)
             + (getY s1 - getY s2) * (getY s1 - getY s2));
  ss_interpolate := straight_line
|}.

Definition header0 : Header := {| stamp := 0; frame_id := "map" |}.

(** A pose at [(x, y, 0)] with heading [yaw]. *)
Definition pose_at (x y yaw : Q) : PoseStamped Heading :=
  {| pose_header := header0;
     pose := {| position := {| px := x; py := y; pz := 0 |};
                orientation := yaw |} |}.

Definition path_of (ps : list (PoseStamped Heading)) : Path Heading :=
  {| path_header := header0; poses := ps |}.

(** The default parameters with a chosen horizon. *)
Definition parameters (horizon : Z) : Parameters :=
  Parameters_with_horizon horizon.

(** A straight line of 11 poses, one unit apart along +x, heading 0. *)
Definition line11 : Path Heading :=
  path_of (map (fun i => pose_at (inject_Z (Z.of_nat i)) 0 0) (seq 0 11)).

Definition origin : PoseStamped Heading := pose_at 0 0 0.

(** Two poses of which the second is the closer to the origin. *)
Definition two_near : Path Heading :=
  path_of [pose_at (3 # 4) 0 0; pose_at (1 # 4) 0 0].

(** A path of a single pose. *)
Definition single_point : Path Heading := path_of [pose_at 1 0 0].

(** Two poses and a robot further than 10000 from both. *)
Definition two_poses : Path Heading := path_of [pose_at 0 0 0; pose_at 1 0 0].
Definition far_away : PoseStamped Heading := pose_at 20000 0 0.

(** A tracked obstacle of identifier [i] at [(x, y, 0)]. *)
Definition obstacle_at (i : Z) (x y : Q) : Object Heading :=
  {| id := i;
     obj_pose := {| position := {| px := x; py := y; pz := 0 |};
                    orientation := 0 |};
     shape := {| type := BOX; dimensions := [1; 1; 1] |};
     is_dynamic := false |}.

(** Eight obstacles at the distances 1, 9, 2, 8, 3, 7, 4, 6 from the
    origin, and three obstacles. *)
Definition obstacles8 : list (Object Heading) :=
  [obstacle_at 1 1 0; obstacle_at 2 9 0; obstacle_at 3 2 0;
   obstacle_at 4 8 0; obstacle_at 5 3 0; obstacle_at 6 7 0;
   obstacle_at 7 4 0; obstacle_at 8 6 0].

Definition obstacles3 : list (Object Heading) :=
  [obstacle_at 1 5 0; obstacle_at 2 1 0; obstacle_at 3 3 0].

(** Four poses heading along +x, and the same with one pose
    heading 1.2 rad. *)
Definition row4 : Path Heading :=
  path_of [pose_at 0 1 0; pose_at 1 1 0; pose_at 2 2 0; pose_at 3 2 0].

Definition turning4 : Path Heading :=
  path_of [pose_at 0 1 0; pose_at 1 1 0; pose_at 2 2 (12 # 10);
           pose_at 3 2 0].

Definition row_start : PoseStamped Heading := pose_at 0 1 0.

(** Two points of a live cloud inside the crop box of [row4]. *)
Definition live_cloud : list PointXYZ :=
  [{| cx := 1; cy := 3 # 2; cz := 1 # 10 |};
   {| cx := 2; cy := 2; cz := 1 # 10 |}].

(** Two obstacles at the same distance from the origin. *)
Definition obstacles_tied : list (Object Heading) :=
  [obstacle_at 1 2 0; obstacle_at 2 0 2].

(** A robot pose that is off the line and not aligned with it. *)
Definition off_line : PoseStamped Heading := pose_at (1 # 4) (1 # 8) (1 # 10).

(** A live cloud of which no point is in the crop box of [row4]. *)
Definition stray_cloud : list PointXYZ :=
  [{| cx := 100; cy := 100; cz := 100 |};
   {| cx := 1; cy := 3 # 2; cz := 5 |}].

(** A command above the speed limit of [parameters]. *)
Definition fast_twist : Twist :=
  {| linear := {| vx := 25; vy := 0; vz := 0 |};
     angular := {| vx := 0; vy := 0; vz := 1 # 2 |} |}.

End Planar.

(** Unfolds the integer conversions down to [mod] on literals. *)
Ltac unfold_conversions :=
  unfold clamp_to_last, to_size_t, to_int, to_uint, SIZE_MOD, INT_MIN, INT_MAX in *;
  change (2 ^ 64) with 18446744073709551616 in *;
  change (2 ^ 32) with 4294967296 in *;
  change (2 ^ 31) with 2147483648 in *.

(** * Properties *)

(** ** Scalars *)

Lemma Qlt_bool_iff (a b : Q) : Qlt_bool a b = true <-> (a < b)%Q.
Proof.
  unfold Qlt_bool. rewrite negb_true_iff.
  split; intro H.
  - apply Qnot_le_lt. intro Hle. apply Qle_bool_iff in Hle. congruence.
  - destruct (Qle_bool b a) eqn:E; [|reflexivity].
    apply Qle_bool_iff in E. exfalso. exact (Qlt_not_le _ _ H E).
Qed.

Lemma Qlt_bool_false_iff (a b : Q) : Qlt_bool a b = false <-> (b <= a)%Q.
Proof.
  unfold Qlt_bool. rewrite negb_false_iff. apply Qle_bool_iff.
Qed.

(** ** nearestStateIndex *)

Section NearestStateFacts.

Context {Quaternion : Type} `{C : Collaborators Quaternion}.

Lemma nearest_scan_range ps robot :
  forall i ci cd, -1 <= ci < i ->
    -1 <= nearest_scan ps robot i ci cd < i + Z.of_nat (length ps).
Proof.
  induction ps as [|p rest IH]; intros i ci cd Hci; simpl nearest_scan.
  - simpl. lia.
  - cbv zeta.
    destruct (Qlt_bool _ _).
    + specialize (IH (i + 1) i (Qtrunc (getEuclidianDistBetweenPoses p robot))).
      simpl length. lia.
    + specialize (IH (i + 1) ci cd). simpl length. lia.
Qed.

(** The index returned is [-1] or an index of the path. *)
Lemma nearestStateIndex_range traj robot :
  -1 <= nearestStateIndex traj robot < path_size traj.
Proof.
  unfold nearestStateIndex, path_size.
  pose proof (nearest_scan_range (poses traj) robot 0 (-1) 10000).
  lia.
Qed.

End NearestStateFacts.

(** C3, at a failing input.  On the path [(3/4, 0); (1/4, 0)] with the
    robot at the origin, [nearestStateIndex] returns 0 although the pose
    of index 1 is strictly closer: the distance 3/4 of the first pose
    is stored in the [int] accumulator as 0, and 1/4 < 0 fails. *)
Lemma nearestStateIndex_truncates_best_distance :
  nearestStateIndex Planar.two_near Planar.origin = 0 /\
  (getEuclidianDistBetweenPoses (Planar.pose_at (1 # 4) 0 0) Planar.origin
   < getEuclidianDistBetweenPoses (Planar.pose_at (3 # 4) 0 0) Planar.origin)%Q.
Proof.
  split.
  - vm_compute. reflexivity.
  - vm_compute. reflexivity.
Qed.

(** ** Integer conversions *)

Lemma in_int_iff (n : Z) : in_int n = true <-> INT_MIN <= n <= INT_MAX.
Proof.
  unfold in_int. rewrite andb_true_iff, !Z.leb_le. tauto.
Qed.

Lemma to_size_t_small (n : Z) : 0 <= n < SIZE_MOD -> to_size_t n = n.
Proof. intro H. unfold to_size_t. apply Z.mod_small. exact H. Qed.

Lemma to_int_small (n : Z) : INT_MIN <= n <= INT_MAX -> to_int n = n.
Proof.
  intro H. unfold_conversions.
  rewrite Z.mod_small; lia.
Qed.

Lemma to_size_t_negative (n : Z) :
  INT_MIN <= n < 0 -> to_size_t n = n + SIZE_MOD.
Proof.
  intro H. unfold_conversions.
  symmetry. apply (Z.mod_unique n 18446744073709551616 (-1)); lia.
Qed.

Lemma to_uint_small (n : Z) : 0 <= n <= INT_MAX -> to_uint n = n.
Proof.
  intro H. unfold_conversions. apply Z.mod_small. lia.
Qed.

(** The clamp of the window sizing, case by case. *)
Lemma clamp_to_last_cases (size g : Z) :
  1 <= size <= INT_MAX -> in_int g = true ->
  (0 <= g < size - 1 /\ clamp_to_last size g = g) \/
  ((g < 0 \/ size - 1 <= g) /\ clamp_to_last size g = size - 1).
Proof.
  intros Hsize Hg. apply in_int_iff in Hg.
  unfold clamp_to_last.
  assert (Hs : to_size_t (size - 1) = size - 1).
  { apply to_size_t_small. unfold_conversions. lia. }
  rewrite Hs.
  destruct (Z_lt_le_dec g 0) as [Hneg | Hpos].
  - rewrite (to_size_t_negative g) by lia.
    destruct (Z.leb_spec (size - 1) (g + SIZE_MOD)) as [_ | Hlt].
    + right. split; [lia|]. apply to_int_small. unfold_conversions. lia.
    + unfold_conversions. lia.
  - rewrite (to_size_t_small g) by (unfold_conversions; lia).
    destruct (Z.leb_spec (size - 1) g) as [Hle | Hlt].
    + right. split; [lia|]. apply to_int_small. unfold_conversions. lia.
    + left. lia.
Qed.

Lemma clamp_to_last_range (size g : Z) :
  1 <= size <= INT_MAX -> in_int g = true ->
  0 <= clamp_to_last size g <= size - 1.
Proof.
  intros Hsize Hg.
  destruct (clamp_to_last_cases size g Hsize Hg) as [[? ->] | [? ->]]; lia.
Qed.

Lemma at_index_some {A : Type} (l : list A) (i : Z) :
  0 <= i < Z.of_nat (length l) -> exists a, at_index l i = Some a.
Proof.
  intros [H0 H1]. unfold at_index.
  destruct (Z.ltb_spec i 0) as [Hneg | _]; [lia|].
  destruct (nth_error l (Z.to_nat i)) as [a|] eqn:E.
  - exists a. reflexivity.
  - apply nth_error_None in E. lia.
Qed.

Lemma at_index_inv {A : Type} (l : list A) (i : Z) (a : A) :
  at_index l i = Some a -> 0 <= i < Z.of_nat (length l).
Proof.
  unfold at_index. destruct (Z.ltb_spec i 0) as [Hneg | Hpos]; [discriminate|].
  intro E.
  assert (Hlt : (Z.to_nat i < length l)%nat).
  { apply nth_error_Some. rewrite E. discriminate. }
  lia.
Qed.

Lemma double_div_by_zero (a b : Q) : (b == 0)%Q -> double_div a b = None.
Proof.
  intro Hb. unfold double_div.
  rewrite (Qeq_eq_bool _ _ Hb). reflexivity.
Qed.

Lemma double_div_some (a b q : Q) :
  double_div a b = Some q -> ~ (b == 0)%Q /\ q = (a / b)%Q.
Proof.
  unfold double_div. destruct (Qeq_bool b 0) eqn:E; [discriminate|].
  intro H. injection H as <-. split; [|reflexivity].
  apply Qeq_bool_neq. exact E.
Qed.

(** ** PathGeometric::interpolate *)

Section PathGeometricFacts.

Context {Quaternion : Type} `{C : Collaborators Quaternion}.

Lemma getMotionStates_length s1 s2 count :
  length (getMotionStates s1 s2 count) = Z.to_nat count.
Proof.
  unfold getMotionStates. rewrite length_map, length_seq. reflexivity.
Qed.

(** From segment [i] on, the loop emits exactly the [count] states
    that are left of the request, provided the request covers the
    states that remain. *)
Lemma interpolate_from_length tl :
  forall s1 s2 i size count remaining,
    Z.of_nat (length (s1 :: s2 :: tl)) = size - i ->
    size - i <= count ->
    Z.of_nat (length (interpolate_from (s1 :: s2 :: tl) i size count remaining))
    = count.
Proof.
  induction tl as [|s3 tl IH]; intros s1 s2 i size count remaining Hlen Hcount.
  - (* the last segment *)
    simpl length in Hlen.
    simpl interpolate_from. cbv zeta.
    destruct (Z.ltb_spec 0 (count + i - size)) as [Hmax | Hmax].
    + replace (i + 1 =? size - 1) with true by (symmetry; apply Z.eqb_eq; lia).
      destruct (Z.ltb_spec 2 (count + i - size + 2)) as [_ | Hns]; [|lia].
      simpl length. rewrite length_app, getMotionStates_length.
      simpl length. lia.
    + simpl length. lia.
  - (* an inner segment *)
    simpl length in Hlen.
    change (interpolate_from (s1 :: s2 :: s3 :: tl) i size count remaining)
      with
      (let maxNStates := count + i - size in
       if 0 <? maxNStates then
         let segmentLength := si_distance s1 s2 in
         let ns :=
           if i + 1 =? size - 1 then maxNStates + 2
           else Qfloor ((1 # 2) + inject_Z count * segmentLength
                                  / remaining)%Q + 1 in
         if 2 <? ns then
           let ns := Z.min (ns - 2) maxNStates in
           s1 :: getMotionStates s1 s2 ns
              ++ interpolate_from (s2 :: s3 :: tl) (i + 1) size
                   (count - (ns + 1)) (remaining - segmentLength)%Q
         else
           s1 :: interpolate_from (s2 :: s3 :: tl) (i + 1) size (count - 1)
                   (remaining - segmentLength)%Q
       else
         s1 :: interpolate_from (s2 :: s3 :: tl) (i + 1) size (count - 1)
                 remaining).
    cbv zeta.
    assert (Hlen' : Z.of_nat (length (s2 :: s3 :: tl)) = size - (i + 1))
      by (simpl length; lia).
    destruct (Z.ltb_spec 0 (count + i - size)) as [Hmax | Hmax].
    + match goal with
      | |- context [if 2 <? ?n then _ else _] =>
          destruct (Z.ltb_spec 2 n) as [Hns | Hns]
      end.
      * match goal with
        | |- context [Z.min ?a ?b] => set (ns := Z.min a b)
        end.
        assert (Hns' : 0 < ns <= count + i - size) by (subst ns; lia).
        cbn [length]. rewrite length_app, getMotionStates_length.
        rewrite Nat2Z.inj_succ, Nat2Z.inj_add, Z2Nat.id by lia.
        rewrite (IH s2 s3 (i + 1) size (count - (ns + 1))) by (assumption || lia).
        lia.
      * cbn [length]. rewrite Nat2Z.inj_succ.
        rewrite (IH s2 s3 (i + 1) size (count - 1)) by (assumption || lia).
        lia.
    + cbn [length]. rewrite Nat2Z.inj_succ.
      rewrite (IH s2 s3 (i + 1) size (count - 1)) by (assumption || lia).
      lia.
Qed.

(** A path of at least two states, resampled to a count that is at
    least its size, has exactly that count of states. *)
Lemma interpolate_length states requestCount :
  (2 <= length states)%nat ->
  Z.of_nat (length states) <= requestCount ->
  Z.of_nat (length (interpolate states requestCount)) = requestCount.
Proof.
  intros H2 Hreq. unfold interpolate.
  destruct (Z.ltb_spec requestCount (Z.of_nat (length states))) as [Hlt | _];
    [lia|].
  destruct (Z.ltb_spec (Z.of_nat (length states)) 2) as [Hlt | _]; [lia|].
  cbn [orb].
  destruct states as [|s1 [|s2 tl]]; simpl in H2; try lia.
  apply interpolate_from_length; lia.
Qed.

End PathGeometricFacts.

(** ** The horizon window and the reference states *)

Section ReferenceStatesFacts.

Context {Quaternion : Type} `{C : Collaborators Quaternion}.

Lemma obind_some {A B : Type} (c : option A) (k : A -> option B) (b : B) :
  obind c k = Some b -> exists a, c = Some a /\ k a = Some b.
Proof.
  destruct c as [a|]; simpl; [|discriminate].
  intro H. exists a. split; [reflexivity | exact H].
Qed.

(** A defined spacing means a path that is not empty. *)
Lemma interpolation_step_size_some traj step :
  interpolation_step_size traj = Some step -> 1 <= path_size traj.
Proof.
  unfold interpolation_step_size. intro H.
  apply double_div_some in H. destruct H as [Hnz _].
  unfold path_size in *.
  destruct (poses traj) as [|p ps]; simpl length in *.
  - exfalso. apply Hnz. reflexivity.
  - lia.
Qed.

(** What a defined window computation went through. *)
Lemma localGoalStateIndex_some nearest traj la g :
  localGoalStateIndex nearest traj la = Some g ->
  exists step horizon,
    interpolation_step_size traj = Some step /\
    ~ (step == 0)%Q /\
    states_to_see_horizon traj la = Some horizon /\
    in_int (nearest + horizon) = true /\
    g = clamp_to_last (path_size traj) (nearest + horizon).
Proof.
  unfold localGoalStateIndex. intro H.
  apply obind_some in H. destruct H as [horizon [Hh H]].
  apply obind_some in H. destruct H as [cand [Hc H]].
  injection H as <-.
  unfold int_add in Hc.
  destruct (in_int (nearest + horizon)) eqn:Hin; [|discriminate].
  injection Hc as <-.
  pose proof Hh as Hh'.
  unfold states_to_see_horizon in Hh'.
  apply obind_some in Hh'. destruct Hh' as [step [Hs Hq]].
  apply obind_some in Hq. destruct Hq as [q [Hq _]].
  apply double_div_some in Hq. destruct Hq as [Hnz _].
  exists step, horizon. repeat split; assumption.
Qed.

Lemma localGoalStateIndex_range nearest traj la g :
  path_size traj <= INT_MAX ->
  localGoalStateIndex nearest traj la = Some g ->
  0 <= g <= path_size traj - 1.
Proof.
  intros Hmax H.
  apply localGoalStateIndex_some in H.
  destruct H as [step [horizon [Hs [_ [_ [Hin ->]]]]]].
  apply interpolation_step_size_some in Hs.
  apply clamp_to_last_range; [lia | exact Hin].
Qed.

(** The states returned are the interpolation of the two anchors. *)
Lemma getLocalInterpolatedReferenceStates_of_anchors
    robot params traj la anchors :
  localAnchors robot params traj la = Some anchors ->
  getLocalInterpolatedReferenceStates robot params traj la
  = Some (map (to_States params) (interpolate anchors (to_uint (N params)))).
Proof.
  intro H. unfold getLocalInterpolatedReferenceStates. rewrite H. reflexivity.
Qed.

(** Every produced state carries the configured maximum speed. *)
Lemma getLocalInterpolatedReferenceStates_speed robot params traj la states :
  getLocalInterpolatedReferenceStates robot params traj la = Some states ->
  Forall (fun s => v s = V_MAX params) states.
Proof.
  unfold getLocalInterpolatedReferenceStates. intro H.
  apply obind_some in H. destruct H as [anchors [_ H]].
  injection H as <-.
  apply Forall_forall. intros s Hs.
  apply in_map_iff in Hs. destruct Hs as [s0 [<- _]]. reflexivity.
Qed.

End ReferenceStatesFacts.

(** The OMPL path receives exactly two states. *)
Lemma localAnchors_two_states
    {Quaternion : Type} `{C : Collaborators Quaternion}
    (robot : PoseStamped Quaternion) (params : Parameters)
    (traj : Path Quaternion) (la : Q) (anchors : list SE2State) :
  localAnchors robot params traj la = Some anchors ->
  length anchors = 2%nat.
Proof.
  unfold localAnchors. intro H.
  apply obind_some in H. destruct H as [g [_ H]].
  apply obind_some in H. destruct H as [first [_ H]].
  apply obind_some in H. destruct H as [goal [_ H]].
  injection H as <-. reflexivity.
Qed.

(** The two states are defined once the window is sized, unless the
    path is read at a nearest-state index of [-1]. *)
Lemma localAnchors_defined
    {Quaternion : Type} `{C : Collaborators Quaternion}
    (robot : PoseStamped Quaternion) (params : Parameters)
    (traj : Path Quaternion) (la : Q) (g : Z) :
  path_size traj <= INT_MAX ->
  localGoalStateIndex (nearestStateIndex traj robot) traj la = Some g ->
  0 <= nearestStateIndex traj robot
  \/ g - nearestStateIndex traj robot < N params ->
  exists anchors, localAnchors robot params traj la = Some anchors.
Proof.
  intros Hmax Hg Hfirst.
  pose proof (localGoalStateIndex_range _ _ _ _ Hmax Hg) as Hrange.
  pose proof (nearestStateIndex_range traj robot) as Hn.
  unfold path_size in *.
  destruct (at_index_some (poses traj) g) as [goal Hgoal]; [lia|].
  unfold localAnchors. rewrite Hg. cbn [obind].
  destruct (Z.ltb_spec (g - nearestStateIndex traj robot) (N params))
    as [Hlt | Hge].
  - cbn [obind]. rewrite Hgoal. cbn [obind]. eexists. reflexivity.
  - destruct (at_index_some (poses traj) (nearestStateIndex traj robot))
      as [near Hnear]; [lia|].
    rewrite Hnear. cbn [obind]. rewrite Hgoal. cbn [obind].
    eexists. reflexivity.
Qed.

(** C7.  When the window computation yields the local-goal index [g]:
    the second anchor is made of the planar position and the yaw of the
    path pose of index [g]; if [g] minus the nearest-state index is
    smaller than [N], the first anchor is made of the planar position
    and the yaw of the current vehicle pose, otherwise of those of the
    path pose at the nearest-state index. *)
Theorem localAnchors_selection
    {Quaternion : Type} `{C : Collaborators Quaternion}
    (robot : PoseStamped Quaternion) (params : Parameters)
    (traj : Path Quaternion) (la : Q) (g : Z) :
  path_size traj <= INT_MAX ->
  localGoalStateIndex (nearestStateIndex traj robot) traj la = Some g ->
  exists goal,
    at_index (poses traj) g = Some goal /\
    (g - nearestStateIndex traj robot < N params ->
       localAnchors robot params traj la
       = Some [{| getX := px (position (pose robot));
                  getY := py (position (pose robot));
                  getYaw := snd (getRPYfromMsgQuaternion
                                   (orientation (pose robot))) |};
               {| getX := px (position (pose goal));
                  getY := py (position (pose goal));
                  getYaw := snd (getRPYfromMsgQuaternion
                                   (orientation (pose goal))) |}]) /\
    (N params <= g - nearestStateIndex traj robot ->
     0 <= nearestStateIndex traj robot ->
       exists near,
         at_index (poses traj) (nearestStateIndex traj robot) = Some near /\
         localAnchors robot params traj la
         = Some [{| getX := px (position (pose near));
                    getY := py (position (pose near));
                    getYaw := snd (getRPYfromMsgQuaternion
                                     (orientation (pose near))) |};
                 {| getX := px (position (pose goal));
                    getY := py (position (pose goal));
                    getYaw := snd (getRPYfromMsgQuaternion
                                     (orientation (pose goal))) |}]).
Proof.
  intros Hmax Hg.
  pose proof (localGoalStateIndex_range _ _ _ _ Hmax Hg) as Hrange.
  destruct (at_index_some (poses traj) g) as [goal Hgoal].
  { unfold path_size in Hrange. lia. }
  exists goal. split; [exact Hgoal|]. split.
  - intro Hlt. unfold localAnchors. rewrite Hg. cbn [obind].
    destruct (Z.ltb_spec (g - nearestStateIndex traj robot) (N params)); [|lia].
    cbn [obind]. rewrite Hgoal. reflexivity.
  - intros Hge Hnear.
    pose proof (nearestStateIndex_range traj robot) as Hn.
    destruct (at_index_some (poses traj) (nearestStateIndex traj robot))
      as [near Hnear'].
    { unfold path_size in Hn. lia. }
    exists near. split; [exact Hnear'|].
    unfold localAnchors. rewrite Hg. cbn [obind].
    destruct (Z.ltb_spec (g - nearestStateIndex traj robot) (N params)); [lia|].
    rewrite Hnear'. cbn [obind]. rewrite Hgoal. reflexivity.
Qed.

(** C1.  For a path of at least 2 poses and a horizon [N >= 2], every
    list the function returns has exactly [N] reference states; and it
    does return one whenever the window sizing yields a local-goal
    index and the first anchor can be read: the nearest-state search
    found an index, or the gap to the goal index is below [N], in which
    case the path is not read at the nearest index. *)
Theorem getLocalInterpolatedReferenceStates_length
    {Quaternion : Type} `{C : Collaborators Quaternion}
    (robot : PoseStamped Quaternion) (params : Parameters)
    (traj : Path Quaternion) (la : Q) :
  (2 <= length (poses traj))%nat ->
  path_size traj <= INT_MAX ->
  2 <= N params <= INT_MAX ->
  (forall states,
     getLocalInterpolatedReferenceStates robot params traj la = Some states ->
     Z.of_nat (length states) = N params) /\
  (forall g,
     localGoalStateIndex (nearestStateIndex traj robot) traj la = Some g ->
     0 <= nearestStateIndex traj robot
     \/ g - nearestStateIndex traj robot < N params ->
     exists states,
       getLocalInterpolatedReferenceStates robot params traj la
       = Some states /\
       Z.of_nat (length states) = N params).
Proof.
  intros _ Hmax HN.
  assert (Hlen : forall anchors,
            localAnchors robot params traj la = Some anchors ->
            Z.of_nat (length (map (to_States params)
                                (interpolate anchors (to_uint (N params)))))
            = N params).
  { intros anchors Hanchors.
    pose proof (localAnchors_two_states robot params traj la anchors Hanchors)
      as H2.
    rewrite length_map, to_uint_small by lia.
    apply interpolate_length; lia. }
  split.
  - intros states Hstates.
    unfold getLocalInterpolatedReferenceStates in Hstates.
    apply obind_some in Hstates. destruct Hstates as [anchors [Hanchors H]].
    injection H as <-. apply Hlen. exact Hanchors.
  - intros g Hg Hfirst.
    destruct (localAnchors_defined robot params traj la g Hmax Hg Hfirst)
      as [anchors Hanchors].
    eexists. split.
    + apply getLocalInterpolatedReferenceStates_of_anchors. exact Hanchors.
    + apply Hlen. exact Hanchors.
Qed.

(** Where the window sizing has a value in C++, an x86-64 build
    computes that value. *)
Lemma platform_localGoalStateIndex_agrees
    {Quaternion : Type} `{C : Collaborators Quaternion}
    (nearest : Z) (traj : Path Quaternion) (la : Q) (g : Z) :
  localGoalStateIndex nearest traj la = Some g ->
  Platform.localGoalStateIndex nearest traj la = g.
Proof.
  unfold localGoalStateIndex, states_to_see_horizon, interpolation_step_size,
    double_div.
  intro H.
  destruct (Qeq_bool (inject_Z (path_size traj)) 0) eqn:E1; [discriminate|].
  cbn [obind] in H.
  destruct (Qeq_bool (path_euclidian_length (poses traj)
                      / inject_Z (path_size traj)) 0) eqn:E2; [discriminate|].
  cbn [obind] in H. unfold double_to_int in H.
  destruct (in_int (Qtrunc (la / (path_euclidian_length (poses traj)
                                  / inject_Z (path_size traj)))))
    eqn:E3; [|discriminate].
  cbn [obind] in H. unfold int_add in H.
  destruct (in_int (nearest + _)) eqn:E4; [|discriminate].
  cbn [obind] in H. injection H as <-.
  unfold Platform.localGoalStateIndex, Platform.states_to_see_horizon,
    Platform.horizon_quotient, Platform.interpolation_step_size,
    Platform.xdiv.
  rewrite E1, E2. unfold Platform.double_to_int. rewrite E3.
  unfold Platform.int_add.
  rewrite to_int_small by (apply in_int_iff; exact E4).
  reflexivity.
Qed.

(** The conversion of a quotient that is not finite, added to a
    nearest-state index, is clamped to the last index. *)
Lemma clamp_of_INT_MIN (size nearest : Z) :
  1 <= size <= INT_MAX -> -1 <= nearest < size ->
  clamp_to_last size (Platform.int_add nearest INT_MIN) = size - 1.
Proof.
  intros Hsize Hn. unfold Platform.int_add.
  destruct (Z.eq_dec nearest (-1)) as [-> | Hne].
  - change (to_int (-1 + INT_MIN)) with INT_MAX.
    destruct (clamp_to_last_cases size INT_MAX Hsize eq_refl)
      as [[Hr _] | [_ Hc]]; [lia | exact Hc].
  - assert (Hin : INT_MIN <= nearest + INT_MIN <= INT_MAX)
      by (unfold INT_MIN, INT_MAX in *; lia).
    rewrite to_int_small by exact Hin.
    destruct (clamp_to_last_cases size (nearest + INT_MIN) Hsize)
      as [[Hr _] | [_ Hc]];
      [apply in_int_iff; exact Hin
      | unfold INT_MIN, INT_MAX in *; lia
      | exact Hc].
Qed.

(** C4, as amended.  On a path that is not empty and whose total
    length, hence average spacing, is zero, the division by the spacing
    is not guarded: the quotient that is converted to [int] is not a
    finite number.  As an x86-64 build runs the conversion, the
    local-goal index then collapses to the last valid index of the
    path. *)
Theorem localGoalStateIndex_zero_spacing
    {Quaternion : Type} `{C : Collaborators Quaternion}
    (robot : PoseStamped Quaternion) (traj : Path Quaternion) (la : Q) :
  1 <= path_size traj <= INT_MAX ->
  (path_euclidian_length (poses traj) == 0)%Q ->
  (forall q, Platform.horizon_quotient traj la <> Platform.Finite q) /\
  Platform.localGoalStateIndex (nearestStateIndex traj robot) traj la
  = path_size traj - 1.
Proof.
  intros Hsize Hzero.
  pose proof (nearestStateIndex_range traj robot) as Hn.
  assert (E1 : Qeq_bool (inject_Z (path_size traj)) 0 = false).
  { destruct (Qeq_bool (inject_Z (path_size traj)) 0) eqn:E; [|reflexivity].
    apply Qeq_bool_iff in E. unfold Qeq in E. simpl in E. lia. }
  assert (E2 : Qeq_bool (path_euclidian_length (poses traj)
                         / inject_Z (path_size traj)) 0 = true).
  { apply Qeq_bool_iff. rewrite Hzero. unfold Qdiv. apply Qmult_0_l. }
  assert (Hq : Platform.horizon_quotient traj la = Platform.NaN
               \/ exists s, Platform.horizon_quotient traj la
                            = Platform.Infinite s).
  { unfold Platform.horizon_quotient, Platform.interpolation_step_size,
      Platform.xdiv.
    rewrite E1, E2.
    destruct (Qeq_bool la 0); [left; reflexivity | right; eexists; reflexivity]. }
  split.
  - intros q Habs. destruct Hq as [Hq | [s Hq]]; rewrite Hq in Habs;
      discriminate.
  - unfold Platform.localGoalStateIndex, Platform.states_to_see_horizon.
    replace (Platform.double_to_int (Platform.horizon_quotient traj la))
      with INT_MIN
      by (destruct Hq as [Hq | [s Hq]]; rewrite Hq; reflexivity).
    apply clamp_of_INT_MIN; [exact Hsize | lia].
Qed.

(** A run of the window sizing and of the anchor selection on the
    straight line of 11 poses with look-ahead distance 5 and horizon 4,
    from a robot pose that is not a pose of the path: the goal index 5
    is 4 or more ahead of the nearest index 0, and the first anchor is
    the pose of index 0, not the robot pose. *)
Lemma localAnchors_selection_witness :
  exists goal,
    at_index (poses Planar.line11) 5 = Some goal /\
    (5 - nearestStateIndex Planar.line11 Planar.off_line < 4 ->
       localAnchors Planar.off_line (Planar.parameters 4) Planar.line11 5
       = Some [{| getX := px (position (pose Planar.off_line));
                  getY := py (position (pose Planar.off_line));
                  getYaw := snd (getRPYfromMsgQuaternion
                                   (orientation (pose Planar.off_line))) |};
               {| getX := px (position (pose goal));
                  getY := py (position (pose goal));
                  getYaw := snd (getRPYfromMsgQuaternion
                                   (orientation (pose goal))) |}]) /\
    (4 <= 5 - nearestStateIndex Planar.line11 Planar.off_line ->
     0 <= nearestStateIndex Planar.line11 Planar.off_line ->
       exists near,
         at_index (poses Planar.line11)
           (nearestStateIndex Planar.line11 Planar.off_line) = Some near /\
         localAnchors Planar.off_line (Planar.parameters 4) Planar.line11 5
         = Some [{| getX := px (position (pose near));
                    getY := py (position (pose near));
                    getYaw := snd (getRPYfromMsgQuaternion
                                     (orientation (pose near))) |};
                 {| getX := px (position (pose goal));
                    getY := py (position (pose goal));
                    getYaw := snd (getRPYfromMsgQuaternion
                                     (orientation (pose goal))) |}]).
Proof.
  apply (localAnchors_selection Planar.off_line (Planar.parameters 4)
           Planar.line11 5 5).
  - vm_compute. discriminate.
  - vm_compute. reflexivity.
Defined.

(** The two branches on that input: with the horizon 4 the curve starts
    at the path pose (0, 0) heading 0, with the horizon 10 at the robot
    pose (1/4, 1/8) heading 1/10; both end at the pose of index 5. *)
Lemma localAnchors_selection_both_branches :
  localAnchors Planar.off_line (Planar.parameters 4) Planar.line11 5
  = Some [{| getX := 0; getY := 0; getYaw := 0 |};
          {| getX := 5; getY := 0; getYaw := 0 |}] /\
  localAnchors Planar.off_line (Planar.parameters 10) Planar.line11 5
  = Some [{| getX := 1 # 4; getY := 1 # 8; getYaw := 1 # 10 |};
          {| getX := 5; getY := 0; getYaw := 0 |}].
Proof.
  split; vm_compute; reflexivity.
Qed.

Lemma getLocalInterpolatedReferenceStates_length_witness :
  (forall states,
     getLocalInterpolatedReferenceStates Planar.off_line
       (Planar.parameters 4) Planar.line11 5 = Some states ->
     Z.of_nat (length states) = N (Planar.parameters 4)) /\
  (forall g,
     localGoalStateIndex (nearestStateIndex Planar.line11 Planar.off_line)
       Planar.line11 5 = Some g ->
     0 <= nearestStateIndex Planar.line11 Planar.off_line
     \/ g - nearestStateIndex Planar.line11 Planar.off_line
        < N (Planar.parameters 4) ->
     exists states,
       getLocalInterpolatedReferenceStates Planar.off_line
         (Planar.parameters 4) Planar.line11 5 = Some states /\
       Z.of_nat (length states) = N (Planar.parameters 4)).
Proof.
  apply (getLocalInterpolatedReferenceStates_length Planar.off_line
           (Planar.parameters 4) Planar.line11 5).
  - simpl. lia.
  - vm_compute. discriminate.
  - vm_compute. split; discriminate.
Defined.

(** On that input the function does return, four states. *)
Lemma getLocalInterpolatedReferenceStates_returns_four :
  exists states,
    getLocalInterpolatedReferenceStates Planar.off_line
      (Planar.parameters 4) Planar.line11 5 = Some states /\
    length states = 4%nat.
Proof.
  eexists. split; vm_compute; reflexivity.
Qed.

Lemma localGoalStateIndex_zero_spacing_witness :
  (forall q, Platform.horizon_quotient Planar.single_point 5
             <> Platform.Finite q) /\
  Platform.localGoalStateIndex
    (nearestStateIndex Planar.single_point Planar.origin)
    Planar.single_point 5
  = path_size Planar.single_point - 1.
Proof.
  apply (localGoalStateIndex_zero_spacing Planar.origin
           Planar.single_point 5).
  - vm_compute. split; discriminate.
  - vm_compute. reflexivity.
Defined.

(** C4, a counterexample.  A path of a single pose has spacing zero,
    and the look-ahead 5 is divided by it all the same: the value that
    is converted to [int] is plus infinity.  No test stands before the
    division. *)
Lemma horizon_division_not_guarded :
  interpolation_step_size Planar.single_point = Some 0%Q /\
  Platform.interpolation_step_size Planar.single_point
  = Platform.Finite 0 /\
  Platform.horizon_quotient Planar.single_point 5
  = Platform.Infinite false.
Proof.
  split; [|split]; vm_compute; reflexivity.
Qed.

(** C8, as amended.  On the straight line of 11 poses one unit apart
    with the robot at the origin and look-ahead distance 5: the nearest
    index is 0, the path length is 10 and the average spacing is that
    length over the 11 points, 10/11; the look-ahead count is 5 and the
    local-goal index is 5. *)
Theorem straight_line_scenario :
  nearestStateIndex Planar.line11 Planar.origin = 0 /\
  (path_euclidian_length (poses Planar.line11) == 10)%Q /\
  (exists step, interpolation_step_size Planar.line11 = Some step /\
                (step == 10 # 11)%Q) /\
  states_to_see_horizon Planar.line11 5 = Some 5 /\
  localGoalStateIndex (nearestStateIndex Planar.line11 Planar.origin)
    Planar.line11 5 = Some 5.
Proof.
  split; [vm_compute; reflexivity|].
  split; [vm_compute; reflexivity|].
  split.
  - eexists. split; [reflexivity|]. vm_compute. reflexivity.
  - split; vm_compute; reflexivity.
Qed.

(** C8, a counterexample: in that scenario the spacing is not 1.0. *)
Lemma straight_line_spacing_not_one :
  exists step, interpolation_step_size Planar.line11 = Some step /\
               ~ (step == 1)%Q.
Proof.
  eexists. split; [reflexivity|].
  vm_compute. discriminate.
Qed.

(** ** regulateMaxSpeed *)

(** C9.  With [V_MIN <= V_MAX], the linear velocity after the call lies
    in [[V_MIN, V_MAX]], and a twist whose linear velocity is already
    in that range is returned as it is.  (The function is total: it is
    a plain function of the embedding.) *)
Theorem regulateMaxSpeed_clamps (computed_velocity : Twist)
    (mpc_parameters : Parameters) :
  (V_MIN mpc_parameters <= V_MAX mpc_parameters)%Q ->
  (V_MIN mpc_parameters
     <= vx (linear (regulateMaxSpeed computed_velocity mpc_parameters))
     <= V_MAX mpc_parameters)%Q /\
  ((V_MIN mpc_parameters <= vx (linear computed_velocity)
      <= V_MAX mpc_parameters)%Q ->
   regulateMaxSpeed computed_velocity mpc_parameters = computed_velocity).
Proof.
  intro Hbounds. unfold regulateMaxSpeed.
  destruct (Qlt_bool (V_MAX mpc_parameters) (vx (linear computed_velocity)))
    eqn:Hhigh.
  - apply Qlt_bool_iff in Hhigh. split.
    + simpl. split; [exact Hbounds | apply Qle_refl].
    + intros [_ Hle]. exfalso. exact (Qlt_not_le _ _ Hhigh Hle).
  - apply Qlt_bool_false_iff in Hhigh.
    destruct (Qlt_bool (vx (linear computed_velocity)) (V_MIN mpc_parameters))
      eqn:Hlow.
    + apply Qlt_bool_iff in Hlow. split.
      * simpl. split; [apply Qle_refl | exact Hbounds].
      * intros [Hle _]. exfalso. exact (Qlt_not_le _ _ Hlow Hle).
    + apply Qlt_bool_false_iff in Hlow. split.
      * split; assumption.
      * intros _. reflexivity.
Qed.

(** The other components of the twist are not touched. *)
Lemma regulateMaxSpeed_frame (computed_velocity : Twist)
    (mpc_parameters : Parameters) :
  let out := regulateMaxSpeed computed_velocity mpc_parameters in
  vy (linear out) = vy (linear computed_velocity) /\
  vz (linear out) = vz (linear computed_velocity) /\
  angular out = angular computed_velocity.
Proof.
  unfold regulateMaxSpeed.
  destruct (Qlt_bool _ _); [simpl; auto|].
  destruct (Qlt_bool _ _); simpl; auto.
Qed.

Lemma regulateMaxSpeed_clamps_witness :
  (V_MIN (Planar.parameters 10)
     <= vx (linear (regulateMaxSpeed Planar.fast_twist (Planar.parameters 10)))
     <= V_MAX (Planar.parameters 10))%Q /\
  ((V_MIN (Planar.parameters 10) <= vx (linear Planar.fast_twist)
      <= V_MAX (Planar.parameters 10))%Q ->
   regulateMaxSpeed Planar.fast_twist (Planar.parameters 10) = Planar.fast_twist).
Proof.
  apply (regulateMaxSpeed_clamps Planar.fast_twist (Planar.parameters 10)).
  vm_compute. discriminate.
Defined.

(** ** trimObstaclesToN *)

Section SortFacts.

(** The comparator of [trimObstaclesToN] orders the indices by
    their distance. *)
Variable distances : list Q.


Lemma insert_by_perm a l : Permutation (insert_by (comparator distances) a l) (a :: l).
Proof.
  induction l as [|b l IH]; simpl.
  - apply Permutation_refl.
  - destruct (comparator distances b a).
    + apply perm_trans with (b :: a :: l).
      * apply perm_skip. exact IH.
      * apply perm_swap.
    + apply Permutation_refl.
Qed.

Lemma std_sort_perm l : Permutation (std_sort (comparator distances) l) l.
Proof.
  induction l as [|a l IH]; simpl.
  - apply Permutation_refl.
  - apply perm_trans with (a :: std_sort (comparator distances) l).
    + apply insert_by_perm.
    + apply perm_skip. exact IH.
Qed.

Lemma insert_by_sorted a l :
  StronglySorted (le_distance distances) l -> StronglySorted (le_distance distances) (insert_by (comparator distances) a l).
Proof.
  induction l as [|b l IH]; intro Hs; simpl.
  - constructor; constructor.
  - inversion Hs as [|b' l' Hs' Hall]; subst.
    destruct (comparator distances b a) eqn:E; unfold comparator in E.
    + apply Qlt_bool_iff in E.
      constructor; [apply IH; exact Hs'|].
      apply Forall_forall. intros c Hc.
      apply (Permutation_in _ (insert_by_perm a l)) in Hc.
      destruct Hc as [<- | Hc].
      * apply Qlt_le_weak. exact E.
      * rewrite Forall_forall in Hall. apply Hall. exact Hc.
    + apply Qlt_bool_false_iff in E.
      constructor; [exact Hs|].
      constructor.
      * exact E.
      * revert Hall. apply Forall_impl. intros c Hbc.
        unfold le_distance in *.
        apply Qle_trans with (distance_at distances b); [exact E | exact Hbc].
Qed.

Lemma std_sort_sorted l : StronglySorted (le_distance distances) (std_sort (comparator distances) l).
Proof.
  induction l as [|a l IH]; simpl.
  - constructor.
  - apply insert_by_sorted. exact IH.
Qed.

End SortFacts.

Lemma firstn_In {A : Type} (n : nat) :
  forall (l : list A) (a : A), In a (firstn n l) -> In a l.
Proof.
  induction n as [|n IH]; intros l a Ha; simpl in Ha; [contradiction|].
  destruct l as [|b l]; [contradiction|].
  destruct Ha as [<- | Ha]; [left; reflexivity | right; apply IH; exact Ha].
Qed.

Lemma StronglySorted_firstn {A : Type} (R : A -> A -> Prop) (n : nat) :
  forall l, StronglySorted R l -> StronglySorted R (firstn n l).
Proof.
  induction n as [|n IH]; intros l Hs; simpl.
  - constructor.
  - destruct l as [|a l]; [constructor|].
    inversion Hs as [|a' l' Hs' Hall]; subst.
    constructor.
    + apply IH. exact Hs'.
    + apply Forall_forall. intros b Hb.
      rewrite Forall_forall in Hall. apply Hall.
      apply (firstn_In n l b Hb).
Qed.

Lemma StronglySorted_map {A B : Type} (R : B -> B -> Prop) (f : A -> B) :
  forall l, StronglySorted (fun a b => R (f a) (f b)) l ->
            StronglySorted R (map f l).
Proof.
  induction l as [|a l IH]; intro Hs; simpl.
  - constructor.
  - inversion Hs as [|a' l' Hs' Hall]; subst.
    constructor; [apply IH; exact Hs'|].
    apply Forall_forall. intros b Hb.
    apply in_map_iff in Hb. destruct Hb as [c [<- Hc]].
    rewrite Forall_forall in Hall. apply Hall. exact Hc.
Qed.

(** Reading the first [n] cells of [l] one index at a time. *)
Lemma map_nth_seq_firstn {A B : Type} (f : A -> B) (d : A) (l : list A) :
  forall n, (n <= length l)%nat ->
    map (fun i => f (nth i l d)) (seq 0 n) = map f (firstn n l).
Proof.
  induction l as [|a l IH]; intros n Hn.
  - simpl in Hn. assert (n = O) by lia. subst n. reflexivity.
  - destruct n as [|n]; [reflexivity|].
    cbn [seq firstn map nth]. f_equal.
    rewrite <- seq_shift, map_map.
    apply IH. simpl in Hn. lia.
Qed.

Lemma StronglySorted_weaken {A : Type} (R R' : A -> A -> Prop) :
  forall l, (forall a b, In a l -> In b l -> R a b -> R' a b) ->
            StronglySorted R l -> StronglySorted R' l.
Proof.
  induction l as [|a l IH]; intros Himp Hs.
  - constructor.
  - inversion Hs as [|a' l' Hs' Hall]; subst.
    constructor.
    + apply IH; [|exact Hs'].
      intros b c Hb Hc. apply Himp; right; assumption.
    + apply Forall_forall. intros b Hb.
      rewrite Forall_forall in Hall.
      apply Himp; [left; reflexivity | right; exact Hb | apply Hall; exact Hb].
Qed.

Section TrimFacts.

Context {Quaternion : Type} `{C : Collaborators Quaternion}.

Lemma push_ghosts_spec n :
  forall st : TrimStore Quaternion,
    push_ghosts n st
    = {| obstacle_tracks := obstacle_tracks st;
         trimmed_N_obstacles :=
           trimmed_N_obstacles st ++ repeat ghost_obstacle n |}.
Proof.
  induction n as [|n IH]; intro st; simpl.
  - rewrite app_nil_r. destruct st; reflexivity.
  - rewrite IH. unfold push_back. simpl.
    rewrite <- app_assoc. reflexivity.
Qed.

Lemma iota_In n a : In a (iota n) <-> 0 <= a < Z.of_nat n.
Proof.
  unfold iota. rewrite in_map_iff. split.
  - intros [i [<- Hi]]. apply in_seq in Hi. lia.
  - intro Ha. exists (Z.to_nat a). split; [lia|].
    apply in_seq. lia.
Qed.

Lemma sorted_indices_length distances :
  length (sorted_indices distances) = length distances.
Proof.
  unfold sorted_indices.
  rewrite (Permutation_length (std_sort_perm distances _)).
  unfold iota. rewrite length_map, length_seq. reflexivity.
Qed.

Lemma sorted_indices_In distances a :
  In a (sorted_indices distances) -> 0 <= a < Z.of_nat (length distances).
Proof.
  intro Ha. apply iota_In.
  apply (Permutation_in _ (std_sort_perm distances _)). exact Ha.
Qed.

(** The key of a valid index is the distance of the obstacle it
    designates. *)
Lemma distance_at_obstacle objects robot a :
  0 <= a < Z.of_nat (length objects) ->
  distance_at (obstacle_distances objects robot) a
  = distance_to robot (nth (Z.to_nat a) objects default_object).
Proof.
  intro Ha. unfold distance_at, obstacle_distances.
  rewrite (nth_indep _ 0%Q (distance_to robot default_object)).
  - apply (map_nth (distance_to robot)).
  - rewrite length_map. lia.
Qed.

(** The branch that keeps the [n] nearest obstacles. *)
Lemma keep_nearest_spec (n : nat) objects robot st :
  obstacle_tracks st = objects ->
  (n <= length objects)%nat ->
  let out := trimmed_N_obstacles
               (keep_nearest n
                  (sorted_indices (obstacle_distances objects robot)) st) in
  length out = n /\
  (forall o, In o out -> In o objects) /\
  StronglySorted
    (fun a b => (distance_to robot a <= distance_to robot b)%Q) out.
Proof.
  intros Hst Hn. cbv zeta. unfold keep_nearest. cbn [trimmed_N_obstacles].
  rewrite Hst.
  set (sorted := sorted_indices (obstacle_distances objects robot)).
  assert (Hlen : length sorted = length objects).
  { subst sorted. rewrite sorted_indices_length.
    unfold obstacle_distances. apply length_map. }
  assert (Hvalid : forall a, In a sorted -> 0 <= a < Z.of_nat (length objects)).
  { intros a Ha. subst sorted. apply sorted_indices_In in Ha.
    unfold obstacle_distances in Ha. rewrite length_map in Ha. exact Ha. }
  rewrite (map_nth_seq_firstn
             (fun a => nth (Z.to_nat a) objects default_object) 0 sorted n)
    by lia.
  split; [|split].
  - rewrite length_map, length_firstn. lia.
  - intros o Ho. apply in_map_iff in Ho. destruct Ho as [a [<- Ha]].
    apply firstn_In in Ha. apply Hvalid in Ha.
    apply nth_In. lia.
  - apply StronglySorted_map.
    apply StronglySorted_weaken
      with (R := le_distance (obstacle_distances objects robot)).
    + intros a b Ha Hb Hab.
      apply firstn_In in Ha. apply firstn_In in Hb.
      apply Hvalid in Ha. apply Hvalid in Hb.
      unfold le_distance in Hab.
      rewrite !distance_at_obstacle in Hab by assumption.
      exact Hab.
    + apply StronglySorted_firstn. subst sorted. apply std_sort_sorted.
Qed.

End TrimFacts.

(** C2.  For a target count [K > 0] the list returned has exactly [K]
    obstacles.  With [K <= |L|] every returned obstacle is one of [L]
    and the distances to the robot never decrease along the list.
    With [|L| < K] the list is [L], in its order, followed by
    [K - |L|] ghost obstacles, each at (20000, 20000, 20000) with the
    box shape of dimensions 0.1.  The list [L] the function was given
    is the same after the call. *)
Theorem trimObstaclesToN_spec
    {Quaternion : Type} `{C : Collaborators Quaternion}
    (L : list (Object Quaternion)) (robot : PoseStamped Quaternion) (K : Z) :
  0 < K <= INT_MAX ->
  let out := trimObstaclesToN L robot K in
  Z.of_nat (length out) = K /\
  (K <= Z.of_nat (length L) ->
     (forall o, In o out -> In o L) /\
     StronglySorted
       (fun a b => (distance_to robot a <= distance_to robot b)%Q) out) /\
  (Z.of_nat (length L) < K ->
     out = L ++ repeat ghost_obstacle (Z.to_nat (K - Z.of_nat (length L))) /\
     position (obj_pose ghost_obstacle)
       = {| px := 20000; py := 20000; pz := 20000 |} /\
     shape ghost_obstacle
       = {| type := BOX;
            dimensions := [(1 # 10)%Q; (1 # 10)%Q; (1 # 10)%Q] |}) /\
  obstacle_tracks (trim_run L robot K) = L.
Proof.
  intros HK. cbv zeta. unfold trimObstaclesToN, trim_run.
  assert (HKs : to_size_t K = K).
  { apply to_size_t_small. unfold_conversions. lia. }
  rewrite HKs.
  destruct (Z.ltb_spec (Z.of_nat (length L)) K) as [Hlt | Hge].
  - (* padding *)
    assert (Hn : to_size_t (K - Z.of_nat (length L)) = K - Z.of_nat (length L)).
    { apply to_size_t_small. unfold_conversions. lia. }
    rewrite Hn, push_ghosts_spec. cbn [trimmed_N_obstacles obstacle_tracks].
    split; [|split; [|split]].
    + rewrite length_app, repeat_length. lia.
    + intro Hle. lia.
    + intros _. split; [reflexivity|]. split; reflexivity.
    + reflexivity.
  - (* the K nearest *)
    pose proof (keep_nearest_spec (Z.to_nat K) L robot
                  {| obstacle_tracks := L; trimmed_N_obstacles := L |}
                  eq_refl) as Hkeep.
    cbv zeta in Hkeep.
    destruct Hkeep as [Hlen [Hin Hsorted]]; [lia|].
    split; [|split; [|split]].
    + rewrite Hlen. lia.
    + intros _. split; assumption.
    + intro Hlt. lia.
    + reflexivity.
Qed.

(** ** readjustGlobalPlanLocally *)

Lemma assign_length {A : Type} (l : list A) (i : Z) (a : A) :
  0 <= i < Z.of_nat (length l) -> length (assign l i a) = length l.
Proof.
  intro Hi. unfold assign.
  rewrite length_app, length_firstn. cbn [length]. rewrite length_skipn. lia.
Qed.

(** A write at index [i] is read back at [i] and nowhere else. *)
Lemma assign_nth_error {A : Type} (l : list A) (i : Z) (a : A) (j : nat) :
  0 <= i < Z.of_nat (length l) ->
  nth_error (assign l i a) j
  = if Z.of_nat j =? i then Some a else nth_error l j.
Proof.
  intro Hi. unfold assign.
  assert (Hlen : length (firstn (Z.to_nat i) l) = Z.to_nat i).
  { rewrite length_firstn. lia. }
  destruct (Z.eqb_spec (Z.of_nat j) i) as [Heq | Hneq].
  - rewrite nth_error_app2 by lia.
    rewrite Hlen. replace (j - Z.to_nat i)%nat with O by lia. reflexivity.
  - destruct (Nat.lt_ge_cases j (Z.to_nat i)) as [Hlt | Hge].
    + rewrite nth_error_app1 by lia.
      rewrite nth_error_firstn.
      destruct (Nat.ltb_spec j (Z.to_nat i)); [reflexivity | lia].
    + rewrite nth_error_app2 by lia.
      rewrite Hlen.
      destruct (j - Z.to_nat i)%nat as [|k] eqn:Ek; [lia|].
      cbn [nth_error]. rewrite nth_error_skipn.
      f_equal. lia.
Qed.

Section RowAlignmentFacts.

Context {Quaternion : Type} `{C : Collaborators Quaternion}.

(** The test of the alignment loop, as a proposition. *)
Lemma not_in_row_iff (p : PoseStamped Quaternion) :
  not_in_row p = true
  <-> ((4 # 10) < Qabs (fmod (yaw_of (orientation (pose p))) M_PI))%Q.
Proof. unfold not_in_row. apply Qlt_bool_iff. Qed.

(** The recentring keeps the header, [x] and the orientation. *)
Lemma recenter_frame center (p : PoseStamped Quaternion) :
  pose_header (recenter center p) = pose_header p /\
  px (position (pose (recenter center p))) = px (position (pose p)) /\
  orientation (pose (recenter center p)) = orientation (pose p).
Proof. unfold recenter. simpl. auto. Qed.

(** It moves [y] and [z] onto the centroid. *)
Lemma recenter_onto_centroid center (p : PoseStamped Quaternion) :
  (py (position (pose (recenter center p))) == cy center)%Q /\
  (pz (position (pose (recenter center p))) == cz center)%Q.
Proof. unfold recenter. simpl. split; ring. Qed.

(** The last loop writes the poses of [count] consecutive indices
    from [i] on, and no other. *)
Lemma recenter_loop_spec center count :
  forall i (ps : list (PoseStamped Quaternion)) states,
    0 <= i -> i + Z.of_nat count <= Z.of_nat (length ps) ->
    exists ps' states',
      recenter_loop count i center ps states = Some (ps', states') /\
      length ps' = length ps /\
      forall j : nat,
        nth_error ps' j
        = if (i <=? Z.of_nat j) && (Z.of_nat j <? i + Z.of_nat count)
          then option_map (recenter center) (nth_error ps j)
          else nth_error ps j.
Proof.
  induction count as [|count IH]; intros i ps states Hi Hlen.
  - exists ps, states. split; [reflexivity|]. split; [reflexivity|].
    intro j.
    destruct (Z.leb_spec i (Z.of_nat j)), (Z.ltb_spec (Z.of_nat j) (i + Z.of_nat 0));
      cbn [andb]; try reflexivity; lia.
  - cbn [recenter_loop].
    destruct (at_index_some ps i) as [p Hp]; [lia|].
    rewrite Hp. cbn [obind].
    set (p' := recenter center p).
    destruct (IH (i + 1) (assign ps i p') (states ++ [state_of_pose p']))
      as [ps' [states' [Hrun [Hlen' Hnth]]]].
    { lia. }
    { rewrite assign_length by lia. lia. }
    exists ps', states'. split; [exact Hrun|].
    split; [rewrite Hlen'; apply assign_length; lia|].
    intro j. rewrite Hnth.
    rewrite assign_nth_error by lia.
    unfold at_index in Hp.
    destruct (Z.ltb_spec i 0) as [|_]; [lia|].
    destruct (Z.eqb_spec (Z.of_nat j) i) as [Heq | Hneq].
    + replace (Z.to_nat i) with j in Hp by lia.
      rewrite Hp. cbn [option_map].
      destruct (Z.leb_spec (i + 1) (Z.of_nat j)); [lia|]. cbn [andb].
      destruct (Z.leb_spec i (Z.of_nat j)); [|lia].
      destruct (Z.ltb_spec (Z.of_nat j) (i + Z.of_nat (S count))); [|lia].
      reflexivity.
    + destruct (Z.leb_spec (i + 1) (Z.of_nat j)),
               (Z.leb_spec i (Z.of_nat j)),
               (Z.ltb_spec (Z.of_nat j) (i + 1 + Z.of_nat count)),
               (Z.ltb_spec (Z.of_nat j) (i + Z.of_nat (S count)));
        cbn [andb]; try reflexivity; lia.
Qed.

(** The local-goal index of the corrector for a look-ahead that is
    not negative. *)
Lemma readjust_goal_index_some size nearest look :
  1 <= size <= INT_MAX -> 0 <= nearest < size ->
  0 <= look -> nearest + look <= INT_MAX ->
  exists g, readjust_goal_index size nearest look = Some g /\
            nearest <= g <= size - 1 /\
            g = Z.min (nearest + look) (size - 1).
Proof.
  intros Hsize Hnear Hlook Hsum.
  unfold readjust_goal_index, int_add.
  assert (Hin : in_int (nearest + look) = true).
  { apply in_int_iff. unfold INT_MIN, INT_MAX in *. lia. }
  rewrite Hin. cbn [obind].
  rewrite (to_size_t_small (size - 1)) by (unfold_conversions; lia).
  rewrite (to_size_t_small (nearest + look)) by (unfold_conversions; lia).
  destruct (Z.ltb_spec (size - 1) (nearest + look)) as [Hover | Hin'].
  - exists (size - 1). rewrite to_int_small by (unfold_conversions; lia).
    split; [reflexivity|]. lia.
  - exists (nearest + look). split; [reflexivity|]. lia.
Qed.

Lemma slice_some {A : Type} (l : list A) (m n : Z) :
  0 <= m -> m <= n + 1 -> n + 1 <= Z.of_nat (length l) ->
  slice l m n
  = Some (firstn (Z.to_nat (n + 1 - m)) (skipn (Z.to_nat m) l)).
Proof.
  intros H0 H1 H2. unfold slice.
  destruct (Z.ltb_spec m 0); [lia|].
  destruct (Z.ltb_spec (Z.of_nat (length l)) (n + 1)); [lia|].
  destruct (Z.ltb_spec (n + 1) m); [lia|].
  reflexivity.
Qed.

End RowAlignmentFacts.

Section ReadjustFacts.

Context {Quaternion : Type} `{C : Collaborators Quaternion}.

Lemma readjust_goal_index_range size nearest look g :
  1 <= size <= INT_MAX ->
  readjust_goal_index size nearest look = Some g ->
  0 <= g <= size - 1.
Proof.
  intros Hsize. unfold readjust_goal_index, int_add.
  destruct (in_int (nearest + look)) eqn:Hin; [|discriminate].
  cbn [obind]. apply in_int_iff in Hin.
  rewrite (to_size_t_small (size - 1)) by (unfold_conversions; lia).
  intro H. injection H as <-.
  destruct (Z_lt_le_dec (nearest + look) 0) as [Hneg | Hpos].
  - rewrite (to_size_t_negative (nearest + look)) by lia.
    destruct (Z.ltb_spec (size - 1) (nearest + look + SIZE_MOD)) as [_ | Hle].
    + rewrite to_int_small by (unfold_conversions; lia). lia.
    + unfold_conversions. lia.
  - rewrite (to_size_t_small (nearest + look)) by (unfold_conversions; lia).
    destruct (Z.ltb_spec (size - 1) (nearest + look)) as [_ | Hle].
    + rewrite to_int_small by (unfold_conversions; lia). lia.
    + lia.
Qed.

Lemma slice_inv {A : Type} (l : list A) (m n : Z) (s : list A) :
  slice l m n = Some s ->
  0 <= m /\ m <= n + 1 /\ n + 1 <= Z.of_nat (length l) /\
  s = firstn (Z.to_nat (n + 1 - m)) (skipn (Z.to_nat m) l).
Proof.
  unfold slice.
  destruct (Z.ltb_spec m 0) as [|H0]; [discriminate|].
  destruct (Z.ltb_spec (Z.of_nat (length l)) (n + 1)) as [|H1]; [discriminate|].
  destruct (Z.ltb_spec (n + 1) m) as [|H2]; [discriminate|].
  cbn [orb]. intro E. injection E as <-.
  split; [lia|]. split; [lia|]. split; [lia|]. reflexivity.
Qed.

(** The two ways the corrector ends once its slice is extracted:
    it returns early with the path as it was, or it recentres the
    poses of the indices [nearest .. g] and no other. *)
Lemma readjust_outcome robot cloud traj iy iz look g s :
  path_size traj <= INT_MAX ->
  readjust_goal_index (path_size traj) (nearestStateIndex traj robot) look
    = Some g ->
  slice (poses traj) (nearestStateIndex traj robot) g = Some s ->
  (existsb not_in_row s = true /\
   readjustGlobalPlanLocally robot cloud traj iy iz look
   = Some {| traj_after := traj; readjusted_states := None |})
  \/
  (existsb not_in_row s = false /\
   exists near goal ps' states,
     at_index (poses traj) (nearestStateIndex traj robot) = Some near /\
     at_index (poses traj) g = Some goal /\
     readjustGlobalPlanLocally robot cloud traj iy iz look
     = Some {| traj_after := {| path_header := path_header traj;
                                poses := ps' |};
               readjusted_states := Some states |} /\
     length ps' = length (poses traj) /\
     forall j : nat,
       nth_error ps' j
       = if (nearestStateIndex traj robot <=? Z.of_nat j)
            && (Z.of_nat j <=? g)
         then option_map
                (recenter
                   (cropped_centroid
                      (yaw_of (orientation (pose robot)))
                      near goal iy iz cloud))
                (nth_error (poses traj) j)
         else nth_error (poses traj) j).
Proof.
  intros Hmax Hg Hs.
  pose proof (nearestStateIndex_range traj robot) as Hn.
  pose proof (slice_inv _ _ _ _ Hs) as [Hn0 [Hng [Hgs _]]].
  assert (Hsize : 1 <= path_size traj <= INT_MAX) by lia.
  pose proof (readjust_goal_index_range _ _ _ _ Hsize Hg) as Hgr.
  unfold readjustGlobalPlanLocally. rewrite Hg. cbn [obind].
  rewrite Hs. cbn [obind].
  destruct (existsb not_in_row s) eqn:Hrow.
  - left. split; reflexivity.
  - right. split; [reflexivity|].
    destruct (at_index_some (poses traj) (nearestStateIndex traj robot))
      as [near Hnear]; [unfold path_size in *; lia|].
    destruct (at_index_some (poses traj) g) as [goal Hgoal];
      [unfold path_size in *; lia|].
    rewrite Hnear, Hgoal. cbn [obind].
    set (center := cropped_centroid _ near goal iy iz cloud).
    destruct (recenter_loop_spec center
                (Z.to_nat (g + 1 - nearestStateIndex traj robot))
                (nearestStateIndex traj robot) (poses traj) [])
      as [ps' [states [Hrun [Hlen Hnth]]]]; [lia | lia |].
    rewrite Hrun. cbn [obind].
    exists near, goal, ps', states.
    split; [reflexivity|]. split; [reflexivity|]. split; [reflexivity|].
    split; [exact Hlen|].
    intro j. rewrite Hnth.
    destruct (Z.leb_spec (nearestStateIndex traj robot) (Z.of_nat j)),
             (Z.leb_spec (Z.of_nat j) g),
             (Z.ltb_spec (Z.of_nat j)
                (nearestStateIndex traj robot
                 + Z.of_nat (Z.to_nat (g + 1 - nearestStateIndex traj robot))));
      cbn [andb]; try reflexivity; lia.
Qed.

(** With a look-ahead count that is not negative and a nearest state
    that was found, the goal index and the slice are defined. *)
Lemma readjust_slice_defined traj robot look :
  path_size traj <= INT_MAX ->
  0 <= nearestStateIndex traj robot ->
  0 <= look -> nearestStateIndex traj robot + look <= INT_MAX ->
  exists g s,
    readjust_goal_index (path_size traj) (nearestStateIndex traj robot) look
      = Some g /\
    slice (poses traj) (nearestStateIndex traj robot) g = Some s.
Proof.
  intros Hmax Hn0 Hlook Hsum.
  pose proof (nearestStateIndex_range traj robot) as Hn.
  destruct (readjust_goal_index_some (path_size traj)
              (nearestStateIndex traj robot) look)
    as [g [Hg [Hgr _]]]; try lia.
  exists g. eexists. split; [exact Hg|].
  apply slice_some; unfold path_size in *; lia.
Qed.

End ReadjustFacts.

(** C6.  If a pose of the extracted slice has [|heading mod pi|] above
    0.4, the call ends there without error and leaves the whole path as
    it was. *)
Theorem readjustGlobalPlanLocally_not_in_row
    {Quaternion : Type} `{C : Collaborators Quaternion}
    (robot : PoseStamped Quaternion) (cloud : list PointXYZ)
    (traj : Path Quaternion) (iy iz : Q) (look g : Z)
    (s : list (PoseStamped Quaternion)) :
  readjust_goal_index (path_size traj) (nearestStateIndex traj robot) look
    = Some g ->
  slice (poses traj) (nearestStateIndex traj robot) g = Some s ->
  Exists (fun p => ((4 # 10)
                    < Qabs (fmod (yaw_of (orientation (pose p))) M_PI))%Q) s ->
  readjustGlobalPlanLocally robot cloud traj iy iz look
  = Some {| traj_after := traj; readjusted_states := None |}.
Proof.
  intros Hg Hs Hex.
  unfold readjustGlobalPlanLocally. rewrite Hg. cbn [obind].
  rewrite Hs. cbn [obind].
  replace (existsb not_in_row s) with true; [reflexivity|].
  symmetry. apply existsb_exists.
  apply Exists_exists in Hex. destruct Hex as [p [Hin Hp]].
  exists p. split; [exact Hin|]. apply not_in_row_iff. exact Hp.
Qed.

(** C10.  Once the slice [nearest .. g] is extracted the call returns,
    and in the path it leaves: the header and the number of poses are
    the same; every pose keeps its header, its [x] and its orientation;
    a pose outside the slice is the same pose.  (Only [y] and [z] of
    the poses of the slice can differ.  The other functions of the
    header take the path by const reference: they are functions of the
    path that return no path.) *)
Theorem readjustGlobalPlanLocally_frame
    {Quaternion : Type} `{C : Collaborators Quaternion}
    (robot : PoseStamped Quaternion) (cloud : list PointXYZ)
    (traj : Path Quaternion) (iy iz : Q) (look g : Z)
    (s : list (PoseStamped Quaternion)) :
  path_size traj <= INT_MAX ->
  readjust_goal_index (path_size traj) (nearestStateIndex traj robot) look
    = Some g ->
  slice (poses traj) (nearestStateIndex traj robot) g = Some s ->
  exists r,
    readjustGlobalPlanLocally robot cloud traj iy iz look = Some r /\
    path_header (traj_after r) = path_header traj /\
    length (poses (traj_after r)) = length (poses traj) /\
    forall (j : nat) p,
      nth_error (poses traj) j = Some p ->
      exists p',
        nth_error (poses (traj_after r)) j = Some p' /\
        pose_header p' = pose_header p /\
        px (position (pose p')) = px (position (pose p)) /\
        orientation (pose p') = orientation (pose p) /\
        (Z.of_nat j < nearestStateIndex traj robot \/ g < Z.of_nat j ->
         p' = p).
Proof.
  intros Hmax Hg Hs.
  destruct (readjust_outcome robot cloud traj iy iz look g s Hmax Hg Hs)
    as [[_ Hrun] | [_ [near [goal [ps' [states [_ [_ [Hrun [Hlen Hnth]]]]]]]]]].
  - eexists. split; [exact Hrun|]. cbn [traj_after].
    split; [reflexivity|]. split; [reflexivity|].
    intros j p Hp. exists p. repeat split; auto.
  - eexists. split; [exact Hrun|]. cbn [traj_after path_header poses].
    split; [reflexivity|]. split; [exact Hlen|].
    intros j p Hp. rewrite Hnth, Hp.
    destruct (Z.leb_spec (nearestStateIndex traj robot) (Z.of_nat j)),
             (Z.leb_spec (Z.of_nat j) g); cbn [andb option_map].
    + eexists. split; [reflexivity|].
      destruct (recenter_frame
                  (cropped_centroid (yaw_of (orientation (pose robot)))
                     near goal iy iz cloud) p) as [Hh [Hx Ho]].
      repeat split; try assumption. intros [Hout | Hout]; lia.
    + exists p. repeat split; auto.
    + exists p. repeat split; auto.
    + exists p. repeat split; auto.
Qed.

(** C5, as amended.  When the cloud cropped to the box of the slice
    [nearest .. g] has no point and the slice passes the alignment
    check, the recentring is not skipped: the centroid keeps the value
    of a default-constructed point, (0, 0, 0), and every pose of the
    slice is moved to [y = 0] and [z = 0], its [x] and orientation
    kept; the values written are defined. *)
Theorem readjustGlobalPlanLocally_empty_cloud
    {Quaternion : Type} `{C : Collaborators Quaternion}
    (robot : PoseStamped Quaternion) (cloud : list PointXYZ)
    (traj : Path Quaternion) (iy iz : Q) (look g : Z)
    (s : list (PoseStamped Quaternion))
    (near goal : PoseStamped Quaternion) :
  path_size traj <= INT_MAX ->
  readjust_goal_index (path_size traj) (nearestStateIndex traj robot) look
    = Some g ->
  slice (poses traj) (nearestStateIndex traj robot) g = Some s ->
  existsb not_in_row s = false ->
  at_index (poses traj) (nearestStateIndex traj robot) = Some near ->
  at_index (poses traj) g = Some goal ->
  cropBox cloud
    (fst (crop_corners (snd (getRPYfromMsgQuaternion
                               (orientation (pose robot))))
            near goal iy iz))
    (snd (crop_corners (snd (getRPYfromMsgQuaternion
                               (orientation (pose robot))))
            near goal iy iz))
  = [] ->
  exists r,
    readjustGlobalPlanLocally robot cloud traj iy iz look = Some r /\
    forall (j : nat) p,
      nearestStateIndex traj robot <= Z.of_nat j <= g ->
      nth_error (poses traj) j = Some p ->
      exists p',
        nth_error (poses (traj_after r)) j = Some p' /\
        (py (position (pose p')) == 0)%Q /\
        (pz (position (pose p')) == 0)%Q /\
        px (position (pose p')) = px (position (pose p)) /\
        orientation (pose p') = orientation (pose p).
Proof.
  intros Hmax Hg Hs Hrow Hnear Hgoal Hempty.
  destruct (readjust_outcome robot cloud traj iy iz look g s Hmax Hg Hs)
    as [[Habs _]
       | [_ [near' [goal' [ps' [states [Hnear' [Hgoal' [Hrun [_ Hnth]]]]]]]]]].
  - congruence.
  - assert (near' = near) by congruence.
    assert (goal' = goal) by congruence.
    subst near' goal'.
    eexists. split; [exact Hrun|]. cbn [traj_after poses].
    intros j p [Hlo Hhi] Hp. rewrite Hnth, Hp.
    destruct (Z.leb_spec (nearestStateIndex traj robot) (Z.of_nat j)); [|lia].
    destruct (Z.leb_spec (Z.of_nat j) g); [|lia].
    cbn [andb option_map].
    eexists. split; [reflexivity|].
    assert (Hcenter :
              cropped_centroid (yaw_of (orientation (pose robot)))
                near goal iy iz cloud = PointXYZ_default).
    { unfold cropped_centroid, yaw_of.
      destruct (crop_corners _ near goal iy iz) as [lo hi].
      cbn [fst snd] in Hempty. rewrite Hempty. reflexivity. }
    rewrite Hcenter.
    destruct (recenter_onto_centroid PointXYZ_default p) as [Hy Hz].
    destruct (recenter_frame PointXYZ_default p) as [_ [Hx Ho]].
    repeat split; assumption.
Qed.

(** ** Runs on concrete inputs *)

Lemma trimObstaclesToN_spec_witness :
  let out := trimObstaclesToN Planar.obstacles8 Planar.origin 4 in
  Z.of_nat (length out) = 4 /\
  (4 <= Z.of_nat (length Planar.obstacles8) ->
     (forall o, In o out -> In o Planar.obstacles8) /\
     StronglySorted
       (fun a b => (distance_to Planar.origin a
                    <= distance_to Planar.origin b)%Q) out) /\
  (Z.of_nat (length Planar.obstacles8) < 4 ->
     out = Planar.obstacles8
           ++ repeat ghost_obstacle
                (Z.to_nat (4 - Z.of_nat (length Planar.obstacles8))) /\
     position (obj_pose (Quaternion := Planar.Heading) ghost_obstacle)
       = {| px := 20000; py := 20000; pz := 20000 |} /\
     shape (Quaternion := Planar.Heading) ghost_obstacle
       = {| type := BOX;
            dimensions := [(1 # 10)%Q; (1 # 10)%Q; (1 # 10)%Q] |}) /\
  obstacle_tracks (trim_run Planar.obstacles8 Planar.origin 4)
  = Planar.obstacles8.
Proof.
  apply (trimObstaclesToN_spec Planar.obstacles8 Planar.origin 4).
  vm_compute. split; [reflexivity | discriminate].
Defined.

(** Eight obstacles at the distances 1, 9, 2, 8, 3, 7, 4, 6 and a
    target of 4: those at the distances 1, 2, 3, 4 are kept, in that
    order. *)
Lemma trimObstaclesToN_keeps_four_nearest :
  map id (trimObstaclesToN Planar.obstacles8 Planar.origin 4) = [1; 3; 5; 7].
Proof. vm_compute. reflexivity. Qed.

(** Two obstacles at the same distance are kept in the order they
    had. *)
Lemma trimObstaclesToN_ties_in_input_order :
  map id (trimObstaclesToN Planar.obstacles_tied Planar.origin 1) = [1] /\
  map id (trimObstaclesToN Planar.obstacles_tied Planar.origin 2) = [1; 2].
Proof. split; vm_compute; reflexivity. Qed.

(** Three obstacles and a target of 5: the three, then two ghosts. *)
Lemma trimObstaclesToN_pads_with_ghosts :
  trimObstaclesToN Planar.obstacles3 Planar.origin 5
  = Planar.obstacles3 ++ [ghost_obstacle; ghost_obstacle].
Proof. vm_compute. reflexivity. Qed.

Lemma readjustGlobalPlanLocally_not_in_row_witness :
  readjustGlobalPlanLocally Planar.row_start Planar.live_cloud
    Planar.turning4 (3 # 10) (3 # 10) 10
  = Some {| traj_after := Planar.turning4; readjusted_states := None |}.
Proof.
  apply (readjustGlobalPlanLocally_not_in_row Planar.row_start
           Planar.live_cloud Planar.turning4 (3 # 10) (3 # 10) 10 3
           (poses Planar.turning4)).
  - vm_compute. reflexivity.
  - vm_compute. reflexivity.
  - apply Exists_cons_tl. apply Exists_cons_tl. apply Exists_cons_hd.
    vm_compute. reflexivity.
Defined.

(** With every heading of the slice at 0 the correction goes on: the
    poses are moved onto the centroid of the cropped cloud. *)
Lemma readjustGlobalPlanLocally_in_row :
  exists r,
    readjustGlobalPlanLocally Planar.row_start Planar.live_cloud
      Planar.row4 (3 # 10) (3 # 10) 10 = Some r /\
    map (fun p => py (position (pose p))) (poses (traj_after r))
    = [(7 # 4)%Q; (7 # 4)%Q; (7 # 4)%Q; (7 # 4)%Q] /\
    map (fun p => px (position (pose p))) (poses (traj_after r))
    = [0%Q; 1%Q; 2%Q; 3%Q].
Proof.
  eexists. split; [vm_compute; reflexivity|].
  split; vm_compute; reflexivity.
Qed.

Lemma readjustGlobalPlanLocally_frame_witness :
  exists r,
    readjustGlobalPlanLocally Planar.row_start Planar.live_cloud
      Planar.row4 (3 # 10) (3 # 10) 2 = Some r /\
    path_header (traj_after r) = path_header Planar.row4 /\
    length (poses (traj_after r)) = length (poses Planar.row4) /\
    forall (j : nat) p,
      nth_error (poses Planar.row4) j = Some p ->
      exists p',
        nth_error (poses (traj_after r)) j = Some p' /\
        pose_header p' = pose_header p /\
        px (position (pose p')) = px (position (pose p)) /\
        orientation (pose p') = orientation (pose p) /\
        (Z.of_nat j < nearestStateIndex Planar.row4 Planar.row_start
         \/ 2 < Z.of_nat j ->
         p' = p).
Proof.
  apply (readjustGlobalPlanLocally_frame Planar.row_start Planar.live_cloud
           Planar.row4 (3 # 10) (3 # 10) 2 2
           (firstn 3 (poses Planar.row4))).
  - vm_compute. discriminate.
  - vm_compute. reflexivity.
  - vm_compute. reflexivity.
Defined.

(** A run with a live cloud that has points, none of them in the box
    of the slice. *)
Lemma readjustGlobalPlanLocally_empty_cloud_witness :
  exists r,
    readjustGlobalPlanLocally Planar.row_start Planar.stray_cloud Planar.row4
      (3 # 10) (3 # 10) 10 = Some r /\
    forall (j : nat) p,
      nearestStateIndex Planar.row4 Planar.row_start <= Z.of_nat j <= 3 ->
      nth_error (poses Planar.row4) j = Some p ->
      exists p',
        nth_error (poses (traj_after r)) j = Some p' /\
        (py (position (pose p')) == 0)%Q /\
        (pz (position (pose p')) == 0)%Q /\
        px (position (pose p')) = px (position (pose p)) /\
        orientation (pose p') = orientation (pose p).
Proof.
  apply (readjustGlobalPlanLocally_empty_cloud Planar.row_start
           Planar.stray_cloud Planar.row4 (3 # 10) (3 # 10) 10 3
           (poses Planar.row4)
           (Planar.pose_at 0 1 0) (Planar.pose_at 3 2 0)).
  - vm_compute. discriminate.
  - vm_compute. reflexivity.
  - vm_compute. reflexivity.
  - vm_compute. reflexivity.
  - vm_compute. reflexivity.
  - vm_compute. reflexivity.
  - vm_compute. reflexivity.
Defined.

(** C5, a counterexample.  The live cloud has two points, neither in
    the box of the slice, so that the cropped cloud is empty; the call
    on a row of four poses at [y = 1] and [y = 2] does not leave them
    as they were: it returns a path whose poses are all at [y = 0]. *)
Lemma readjustGlobalPlanLocally_empty_cloud_moves_poses :
  Planar.stray_cloud <> [] /\
  cropBox Planar.stray_cloud
    (fst (crop_corners (snd (getRPYfromMsgQuaternion
                               (orientation (pose Planar.row_start))))
            (Planar.pose_at 0 1 0) (Planar.pose_at 3 2 0)
            (3 # 10) (3 # 10)))
    (snd (crop_corners (snd (getRPYfromMsgQuaternion
                               (orientation (pose Planar.row_start))))
            (Planar.pose_at 0 1 0) (Planar.pose_at 3 2 0)
            (3 # 10) (3 # 10)))
  = [] /\
  exists r,
    readjustGlobalPlanLocally Planar.row_start Planar.stray_cloud Planar.row4
      (3 # 10) (3 # 10) 10 = Some r /\
    map (fun p => py (position (pose p))) (poses (traj_after r))
    = [0%Q; 0%Q; 0%Q; 0%Q] /\
    traj_after r <> Planar.row4.
Proof.
  split; [discriminate|].
  split; [vm_compute; reflexivity|].
  eexists. split; [vm_compute; reflexivity|].
  split; [vm_compute; reflexivity|].
  vm_compute. intro H. discriminate H.
Qed.

(** * Further properties *)

(** ** nearestStateIndex: what the truncating search does return *)

Lemma Qtrunc_nonneg_floor (q : Q) : (0 <= q)%Q -> Qtrunc q = Qfloor q.
Proof.
  intro Hq. destruct q as [n d]. unfold Qtrunc, Qfloor. simpl.
  apply Z.quot_div_nonneg; [|reflexivity].
  unfold Qle in Hq. simpl in Hq. lia.
Qed.

Lemma Qtrunc_le (q : Q) : (0 <= q)%Q -> (inject_Z (Qtrunc q) <= q)%Q.
Proof.
  intro Hq. rewrite (Qtrunc_nonneg_floor q Hq). apply Qfloor_le.
Qed.

Lemma Qlt_trunc_succ (q : Q) : (0 <= q)%Q -> (q < inject_Z (Qtrunc q) + 1)%Q.
Proof.
  intro Hq. rewrite (Qtrunc_nonneg_floor q Hq).
  apply Qlt_le_trans with (inject_Z (Qfloor q + 1)).
  - apply Qlt_floor.
  - rewrite inject_Z_plus. apply Qle_refl.
Qed.

Section NearestStateSearch.

Context {Quaternion : Type} `{C : Collaborators Quaternion}.

Variable robot : PoseStamped Quaternion.

(** The scan either keeps the index it was given or moves to an index
    it visits. *)
Lemma nearest_scan_keeps_or_moves ps :
  forall i ci cd,
    nearest_scan ps robot i ci cd = ci \/ i <= nearest_scan ps robot i ci cd.
Proof.
  induction ps as [|p rest IH]; intros i ci cd; simpl nearest_scan.
  - left. reflexivity.
  - cbv zeta. destruct (Qlt_bool _ _).
    + right. destruct (IH (i + 1) i
                         (Qtrunc (getEuclidianDistBetweenPoses p robot))); lia.
    + destruct (IH (i + 1) ci cd); [left; assumption | right; lia].
Qed.

(** The index is kept exactly when no pose is below the threshold. *)
Lemma nearest_scan_kept ps :
  forall i ci cd, ci < i ->
    (nearest_scan ps robot i ci cd = ci
     <-> Forall (fun p => (inject_Z cd <= distance_from_robot robot p)%Q) ps).
Proof.
  induction ps as [|p rest IH]; intros i ci cd Hci; simpl nearest_scan.
  - split; [constructor | reflexivity].
  - cbv zeta. unfold distance_from_robot in *.
    destruct (Qlt_bool (getEuclidianDistBetweenPoses p robot) (inject_Z cd))
      eqn:E.
    + apply Qlt_bool_iff in E. split.
      * intro Hr.
        destruct (nearest_scan_keeps_or_moves rest (i + 1) i
                    (Qtrunc (getEuclidianDistBetweenPoses p robot))); lia.
      * intro Hall. inversion Hall as [|p' l' Hp _]; subst.
        exfalso. exact (Qlt_not_le _ _ E Hp).
    + apply Qlt_bool_false_iff in E.
      rewrite (IH (i + 1) ci cd) by lia. split.
      * intro Hall. constructor; assumption.
      * intro Hall. inversion Hall; assumption.
Qed.

(** The pose the scan moves to: it is below the threshold, every pose
    visited before it is strictly farther, and every pose visited after
    it is at least as far as its truncated distance. *)
Lemma nearest_scan_moved ps :
  forall i ci cd,
    Forall (fun p => (0 <= distance_from_robot robot p)%Q) ps ->
    (nearest_scan ps robot i ci cd = ci /\
     Forall (fun p => (inject_Z cd <= distance_from_robot robot p)%Q) ps)
    \/
    exists (k : nat) p,
      nearest_scan ps robot i ci cd = i + Z.of_nat k /\
      nth_error ps k = Some p /\
      (distance_from_robot robot p < inject_Z cd)%Q /\
      (forall (j : nat) q, (j < k)%nat -> nth_error ps j = Some q ->
         (distance_from_robot robot p < distance_from_robot robot q)%Q) /\
      (forall (j : nat) q, (k < j)%nat -> nth_error ps j = Some q ->
         (inject_Z (Qtrunc (distance_from_robot robot p))
          <= distance_from_robot robot q)%Q).
Proof.
  induction ps as [|p rest IH]; intros i ci cd Hpos; simpl nearest_scan.
  - left. split; [reflexivity | constructor].
  - inversion Hpos as [|p' l' Hp Hrest]; subst.
    cbv zeta. fold (distance_from_robot robot p).
    destruct (Qlt_bool (distance_from_robot robot p) (inject_Z cd)) eqn:E.
    + apply Qlt_bool_iff in E. right.
      destruct (IH (i + 1) i (Qtrunc (distance_from_robot robot p)) Hrest)
        as [[Hr Hall] | [k [p0 [Hr [Hk [Hlt [Hbefore Hafter]]]]]]].
      * exists O, p. split; [rewrite Hr; lia|]. split; [reflexivity|].
        split; [exact E|]. split.
        -- intros j q Hj. lia.
        -- intros j q Hj Hq. destruct j as [|j]; [lia|]. simpl in Hq.
           rewrite Forall_forall in Hall. apply Hall.
           apply nth_error_In with j. exact Hq.
      * exists (S k), p0. split; [rewrite Hr; lia|]. split; [exact Hk|].
        assert (Hp0 : (distance_from_robot robot p0 < distance_from_robot robot p)%Q).
        { apply Qlt_le_trans with (inject_Z (Qtrunc (distance_from_robot robot p)));
            [exact Hlt | apply Qtrunc_le; exact Hp]. }
        split; [apply Qlt_trans with (distance_from_robot robot p); assumption|].
        split.
        -- intros j q Hj Hq. destruct j as [|j]; simpl in Hq.
           ++ injection Hq as <-. exact Hp0.
           ++ apply (Hbefore j q); [lia | exact Hq].
        -- intros j q Hj Hq. destruct j as [|j]; [lia|]. simpl in Hq.
           apply (Hafter j q); [lia | exact Hq].
    + apply Qlt_bool_false_iff in E.
      destruct (IH (i + 1) ci cd Hrest)
        as [[Hr Hall] | [k [p0 [Hr [Hk [Hlt [Hbefore Hafter]]]]]]].
      * left. split; [exact Hr | constructor; assumption].
      * right. exists (S k), p0. split; [rewrite Hr; lia|].
        split; [exact Hk|]. split; [exact Hlt|]. split.
        -- intros j q Hj Hq. destruct j as [|j]; simpl in Hq.
           ++ injection Hq as <-.
              apply Qlt_le_trans with (inject_Z cd); assumption.
           ++ apply (Hbefore j q); [lia | exact Hq].
        -- intros j q Hj Hq. destruct j as [|j]; [lia|]. simpl in Hq.
           apply (Hafter j q); [lia | exact Hq].
Qed.

End NearestStateSearch.

(** X1.  [nearestStateIndex] returns [-1] exactly when no pose of the
    path is closer than 10000 to the robot; an empty path is one such
    case. *)
Theorem nearestStateIndex_not_found
    {Quaternion : Type} `{C : Collaborators Quaternion}
    (traj : Path Quaternion) (robot : PoseStamped Quaternion) :
  nearestStateIndex traj robot = -1
  <-> Forall (fun p => (10000 <= getEuclidianDistBetweenPoses p robot)%Q)
             (poses traj).
Proof.
  unfold nearestStateIndex.
  rewrite (nearest_scan_kept robot (poses traj) 0 (-1) 10000) by lia.
  reflexivity.
Qed.

(** X2.  When all distances are non-negative and the search returns an
    index [r >= 0]: the pose of index [r] is closer than 10000; every
    pose before it is strictly farther; and no pose of the path is
    closer than it by 1 or more. *)
Theorem nearestStateIndex_within_one
    {Quaternion : Type} `{C : Collaborators Quaternion}
    (traj : Path Quaternion) (robot : PoseStamped Quaternion) :
  Forall (fun p => (0 <= getEuclidianDistBetweenPoses p robot)%Q)
         (poses traj) ->
  0 <= nearestStateIndex traj robot ->
  exists p,
    at_index (poses traj) (nearestStateIndex traj robot) = Some p /\
    (getEuclidianDistBetweenPoses p robot < 10000)%Q /\
    (forall (j : nat) q,
       Z.of_nat j < nearestStateIndex traj robot ->
       nth_error (poses traj) j = Some q ->
       (getEuclidianDistBetweenPoses p robot
        < getEuclidianDistBetweenPoses q robot)%Q) /\
    (forall (j : nat) q,
       nth_error (poses traj) j = Some q ->
       (getEuclidianDistBetweenPoses p robot
        < getEuclidianDistBetweenPoses q robot + 1)%Q).
Proof.
  intros Hpos Hfound. unfold nearestStateIndex in *.
  destruct (nearest_scan_moved robot (poses traj) 0 (-1) 10000 Hpos)
    as [[Hr _] | [k [p [Hr [Hk [Hlt [Hbefore Hafter]]]]]]]; [lia|].
  unfold distance_from_robot in *.
  assert (Hp : (0 <= getEuclidianDistBetweenPoses p robot)%Q).
  { rewrite Forall_forall in Hpos. apply Hpos.
    apply nth_error_In with k. exact Hk. }
  exists p. rewrite Hr. split.
  - unfold at_index. destruct (Z.ltb_spec (0 + Z.of_nat k) 0); [lia|].
    replace (Z.to_nat (0 + Z.of_nat k)) with k by lia. exact Hk.
  - split; [exact Hlt|]. split.
    + intros j q Hj Hq. apply (Hbefore j q); [lia | exact Hq].
    + intros j q Hq.
      assert (Hstep : forall a : Q, (a < a + 1)%Q).
      { intro a. rewrite <- (Qplus_0_r a) at 1.
        apply Qplus_lt_r. reflexivity. }
      destruct (Nat.lt_trichotomy j k) as [Hj | [Hj | Hj]].
      * apply Qlt_trans with (getEuclidianDistBetweenPoses q robot);
          [apply (Hbefore j q Hj Hq) | apply Hstep].
      * subst j. rewrite Hk in Hq. injection Hq as <-. apply Hstep.
      * apply Qlt_le_trans
          with (inject_Z (Qtrunc (getEuclidianDistBetweenPoses p robot)) + 1)%Q.
        -- apply Qlt_trunc_succ. exact Hp.
        -- apply Qplus_le_l. apply (Hafter j q Hj Hq).
Qed.

(** X3.  When all distances are non-negative and the distance of the
    returned pose is a whole number, the truncation loses nothing: the
    returned index is the first index of minimum distance. *)
Theorem nearestStateIndex_exact_on_whole_distance
    {Quaternion : Type} `{C : Collaborators Quaternion}
    (traj : Path Quaternion) (robot : PoseStamped Quaternion)
    (p : PoseStamped Quaternion) :
  Forall (fun p => (0 <= getEuclidianDistBetweenPoses p robot)%Q)
         (poses traj) ->
  at_index (poses traj) (nearestStateIndex traj robot) = Some p ->
  (inject_Z (Qtrunc (getEuclidianDistBetweenPoses p robot))
   == getEuclidianDistBetweenPoses p robot)%Q ->
  (forall (j : nat) q,
     nth_error (poses traj) j = Some q ->
     (getEuclidianDistBetweenPoses p robot
      <= getEuclidianDistBetweenPoses q robot)%Q) /\
  (forall (j : nat) q,
     Z.of_nat j < nearestStateIndex traj robot ->
     nth_error (poses traj) j = Some q ->
     (getEuclidianDistBetweenPoses p robot
      < getEuclidianDistBetweenPoses q robot)%Q).
Proof.
  intros Hpos Hat Hwhole.
  pose proof (at_index_inv _ _ _ Hat) as Hrange.
  unfold nearestStateIndex in *.
  destruct (nearest_scan_moved robot (poses traj) 0 (-1) 10000 Hpos)
    as [[Hr _] | [k [p0 [Hr [Hk [Hlt [Hbefore Hafter]]]]]]]; [lia|].
  unfold distance_from_robot in *.
  rewrite Hr in Hat. unfold at_index in Hat.
  destruct (Z.ltb_spec (0 + Z.of_nat k) 0); [lia|].
  replace (Z.to_nat (0 + Z.of_nat k)) with k in Hat by lia.
  rewrite Hk in Hat. injection Hat as ->.
  split.
  - intros j q Hq.
    destruct (Nat.lt_trichotomy j k) as [Hj | [Hj | Hj]].
    + apply Qlt_le_weak. apply (Hbefore j q Hj Hq).
    + subst j. rewrite Hk in Hq. injection Hq as <-. apply Qle_refl.
    + rewrite <- Hwhole. apply (Hafter j q Hj Hq).
  - intros j q Hj Hq. apply (Hbefore j q); [lia | exact Hq].
Qed.

Lemma nearestStateIndex_within_one_witness :
  exists p,
    at_index (poses Planar.two_near)
      (nearestStateIndex Planar.two_near Planar.origin) = Some p /\
    (getEuclidianDistBetweenPoses p Planar.origin < 10000)%Q /\
    (forall (j : nat) q,
       Z.of_nat j < nearestStateIndex Planar.two_near Planar.origin ->
       nth_error (poses Planar.two_near) j = Some q ->
       (getEuclidianDistBetweenPoses p Planar.origin
        < getEuclidianDistBetweenPoses q Planar.origin)%Q) /\
    (forall (j : nat) q,
       nth_error (poses Planar.two_near) j = Some q ->
       (getEuclidianDistBetweenPoses p Planar.origin
        < getEuclidianDistBetweenPoses q Planar.origin + 1)%Q).
Proof.
  apply (nearestStateIndex_within_one Planar.two_near Planar.origin).
  - repeat constructor; vm_compute; discriminate.
  - vm_compute. discriminate.
Defined.

Lemma nearestStateIndex_exact_on_whole_distance_witness :
  (forall (j : nat) q,
     nth_error (poses Planar.line11) j = Some q ->
     (getEuclidianDistBetweenPoses Planar.origin Planar.origin
      <= getEuclidianDistBetweenPoses q Planar.origin)%Q) /\
  (forall (j : nat) q,
     Z.of_nat j < nearestStateIndex Planar.line11 Planar.origin ->
     nth_error (poses Planar.line11) j = Some q ->
     (getEuclidianDistBetweenPoses Planar.origin Planar.origin
      < getEuclidianDistBetweenPoses q Planar.origin)%Q).
Proof.
  apply (nearestStateIndex_exact_on_whole_distance
           Planar.line11 Planar.origin Planar.origin).
  - repeat constructor; vm_compute; discriminate.
  - vm_compute. reflexivity.
  - vm_compute. reflexivity.
Defined.

(** ** The window and the reference states *)

(** X4.  The candidate index [nearest + horizon] is kept when it lies
    between 0 and [size - 2]; any other candidate, past the end of the
    path or negative, gives the last index [size - 1] (the comparison
    with [size - 1] is made in [size_t]). *)
Theorem localGoalStateIndex_value
    {Quaternion : Type} `{C : Collaborators Quaternion}
    (nearest : Z) (traj : Path Quaternion) (la : Q) (horizon : Z) :
  path_size traj <= INT_MAX ->
  states_to_see_horizon traj la = Some horizon ->
  in_int (nearest + horizon) = true ->
  localGoalStateIndex nearest traj la
  = Some (if (0 <=? nearest + horizon)
             && (nearest + horizon <? path_size traj - 1)
          then nearest + horizon
          else path_size traj - 1).
Proof.
  intros Hmax Hh Hin.
  assert (Hsize : 1 <= path_size traj).
  { unfold states_to_see_horizon in Hh.
    destruct (interpolation_step_size traj) as [step|] eqn:Es;
      [|discriminate].
    apply (interpolation_step_size_some traj step Es). }
  unfold localGoalStateIndex, int_add. rewrite Hh. cbn [obind].
  rewrite Hin. cbn [obind]. f_equal.
  destruct (clamp_to_last_cases (path_size traj) (nearest + horizon))
    as [[Hr ->] | [Hr ->]]; [lia | exact Hin | |].
  - destruct (Z.leb_spec 0 (nearest + horizon)); [|lia].
    destruct (Z.ltb_spec (nearest + horizon) (path_size traj - 1)); [|lia].
    reflexivity.
  - destruct (Z.leb_spec 0 (nearest + horizon)),
             (Z.ltb_spec (nearest + horizon) (path_size traj - 1));
      cbn [andb]; try reflexivity; lia.
Qed.

Lemma localGoalStateIndex_value_witness :
  localGoalStateIndex 8 Planar.line11 5
  = Some (if (0 <=? 8 + 5) && (8 + 5 <? path_size Planar.line11 - 1)
          then 8 + 5
          else path_size Planar.line11 - 1).
Proof.
  apply (localGoalStateIndex_value 8 Planar.line11 5 5).
  - vm_compute. discriminate.
  - vm_compute. reflexivity.
  - vm_compute. reflexivity.
Defined.

(** The resampling of a path of two states. *)
Lemma interpolate_two_states
    {Quaternion : Type} `{C : Collaborators Quaternion}
    (s1 s2 : SE2State) (n : Z) :
  2 <= n ->
  interpolate [s1; s2] n = s1 :: getMotionStates s1 s2 (n - 2) ++ [s2].
Proof.
  intro Hn. unfold interpolate. cbn [length].
  change (Z.of_nat 2) with 2.
  destruct (Z.ltb_spec n 2); [lia|].
  change (2 <? 2) with false. cbn [orb].
  cbn [interpolate_from]. cbv zeta.
  change (0 + 1 =? 2 - 1) with true. cbv iota.
  replace (n + 0 - 2) with (n - 2) by lia.
  destruct (Z.ltb_spec 0 (n - 2)) as [Hpos | Hzero].
  - destruct (Z.ltb_spec 2 (n - 2 + 2)); [|lia].
    replace (n - 2 + 2 - 2) with (n - 2) by lia.
    rewrite Z.min_id. reflexivity.
  - replace (n - 2) with 0 by lia. reflexivity.
Qed.

Lemma interpolate_unchanged
    {Quaternion : Type} `{C : Collaborators Quaternion}
    (states : list SE2State) (n : Z) :
  n < Z.of_nat (length states) -> interpolate states n = states.
Proof.
  intro Hn. unfold interpolate.
  destruct (Z.ltb_spec n (Z.of_nat (length states))); [reflexivity | lia].
Qed.

(** The anchors are always two. *)
Lemma localAnchors_shape
    {Quaternion : Type} `{C : Collaborators Quaternion}
    (robot : PoseStamped Quaternion) (params : Parameters)
    (traj : Path Quaternion) (la : Q) (anchors : list SE2State) :
  localAnchors robot params traj la = Some anchors ->
  exists first goal, anchors = [first; goal].
Proof.
  unfold localAnchors. intro H.
  apply obind_some in H. destruct H as [g [_ H]].
  apply obind_some in H. destruct H as [first [_ H]].
  apply obind_some in H. destruct H as [goal [_ H]].
  injection H as <-. eexists. eexists. reflexivity.
Qed.

(** X5.  For a horizon [N >= 2], a defined run returns: the first
    anchor, then [N - 2] states taken on the curve from the first
    anchor to the goal anchor at the parameters [j / (N - 1)], then the
    goal anchor; every state has the speed [V_MAX] and the height 0. *)
Theorem getLocalInterpolatedReferenceStates_shape
    {Quaternion : Type} `{C : Collaborators Quaternion}
    (robot : PoseStamped Quaternion) (params : Parameters)
    (traj : Path Quaternion) (la : Q) (first goal : SE2State) :
  2 <= N params <= INT_MAX ->
  localAnchors robot params traj la = Some [first; goal] ->
  exists states,
    getLocalInterpolatedReferenceStates robot params traj la = Some states /\
    states
    = to_States params first
      :: map (fun j => to_States params
                         (ss_interpolate first goal
                            (inject_Z (Z.of_nat j)
                             / inject_Z (N params - 1))%Q))
             (seq 1 (Z.to_nat (N params - 2)))
      ++ [to_States params goal] /\
    Forall (fun s => v s = V_MAX params /\ z s = 0%Q) states.
Proof.
  intros HN Hanchors.
  eexists. split.
  - apply getLocalInterpolatedReferenceStates_of_anchors. exact Hanchors.
  - rewrite to_uint_small by lia.
    rewrite (interpolate_two_states first goal (N params)) by lia.
    split.
    + cbn [map]. rewrite map_app. cbn [map].
      unfold getMotionStates. rewrite map_map.
      replace (N params - 2 + 1) with (N params - 1) by lia.
      reflexivity.
    + apply Forall_forall. intros s Hs.
      apply in_map_iff in Hs. destruct Hs as [s0 [<- _]].
      split; reflexivity.
Qed.

Lemma getLocalInterpolatedReferenceStates_shape_witness :
  exists states,
    getLocalInterpolatedReferenceStates Planar.origin (Planar.parameters 4)
      Planar.line11 5 = Some states /\
    states
    = to_States (Planar.parameters 4) (se2_of_pose Planar.origin)
      :: map (fun j => to_States (Planar.parameters 4)
                         (ss_interpolate (se2_of_pose Planar.origin)
                            (se2_of_pose (Planar.pose_at 5 0 0))
                            (inject_Z (Z.of_nat j)
                             / inject_Z (N (Planar.parameters 4) - 1))%Q))
             (seq 1 (Z.to_nat (N (Planar.parameters 4) - 2)))
      ++ [to_States (Planar.parameters 4)
            (se2_of_pose (Planar.pose_at 5 0 0))] /\
    Forall (fun s => v s = V_MAX (Planar.parameters 4) /\ z s = 0%Q) states.
Proof.
  apply (getLocalInterpolatedReferenceStates_shape Planar.origin
           (Planar.parameters 4) Planar.line11 5).
  - vm_compute. split; discriminate.
  - vm_compute. reflexivity.
Defined.

(** X6.  With a horizon [N] of 0 or 1 the request is smaller than the
    two-state path, which is then left as it is: a defined run returns
    the two anchors, 2 states and not [N]. *)
Theorem getLocalInterpolatedReferenceStates_small_horizon
    {Quaternion : Type} `{C : Collaborators Quaternion}
    (robot : PoseStamped Quaternion) (params : Parameters)
    (traj : Path Quaternion) (la : Q) (anchors : list SE2State) :
  0 <= N params < 2 ->
  localAnchors robot params traj la = Some anchors ->
  getLocalInterpolatedReferenceStates robot params traj la
  = Some (map (to_States params) anchors) /\
  length anchors = 2%nat.
Proof.
  intros HN Hanchors.
  destruct (localAnchors_shape robot params traj la anchors Hanchors)
    as [first [goal ->]].
  split; [|reflexivity].
  rewrite (getLocalInterpolatedReferenceStates_of_anchors
             robot params traj la _ Hanchors).
  rewrite to_uint_small by (unfold INT_MAX; lia).
  rewrite interpolate_unchanged by (cbn [length]; lia).
  reflexivity.
Qed.

Lemma getLocalInterpolatedReferenceStates_small_horizon_witness :
  getLocalInterpolatedReferenceStates Planar.origin (Planar.parameters 1)
    Planar.line11 5
  = Some (map (to_States (Planar.parameters 1))
              [se2_of_pose Planar.origin;
               se2_of_pose (Planar.pose_at 5 0 0)]) /\
  length [se2_of_pose Planar.origin; se2_of_pose (Planar.pose_at 5 0 0)]
  = 2%nat.
Proof.
  apply (getLocalInterpolatedReferenceStates_small_horizon Planar.origin
           (Planar.parameters 1) Planar.line11 5).
  - vm_compute. split; [discriminate | reflexivity].
  - vm_compute. reflexivity.
Defined.

(** X7.  On a path with fewer poses than the horizon [N], the gap to
    the goal index is always below [N]: every run whose window is
    defined starts the curve at the current vehicle pose and returns
    [N] states, also when the search found no nearest state. *)
Theorem getLocalInterpolatedReferenceStates_short_path
    {Quaternion : Type} `{C : Collaborators Quaternion}
    (robot : PoseStamped Quaternion) (params : Parameters)
    (traj : Path Quaternion) (la : Q) (g : Z) :
  path_size traj < N params ->
  N params <= INT_MAX ->
  localGoalStateIndex (nearestStateIndex traj robot) traj la = Some g ->
  exists goal states,
    at_index (poses traj) g = Some goal /\
    localAnchors robot params traj la
    = Some [se2_of_pose robot; se2_of_pose goal] /\
    getLocalInterpolatedReferenceStates robot params traj la = Some states /\
    Z.of_nat (length states) = N params.
Proof.
  intros Hshort HN Hg.
  assert (Hmax : path_size traj <= INT_MAX) by lia.
  pose proof (localGoalStateIndex_range _ _ _ _ Hmax Hg) as Hrange.
  pose proof (nearestStateIndex_range traj robot) as Hn.
  destruct (at_index_some (poses traj) g) as [goal Hgoal].
  { unfold path_size in Hrange. lia. }
  assert (Hanchors : localAnchors robot params traj la
                     = Some [se2_of_pose robot; se2_of_pose goal]).
  { unfold localAnchors. rewrite Hg. cbn [obind].
    destruct (Z.ltb_spec (g - nearestStateIndex traj robot) (N params)); [|lia].
    cbn [obind]. rewrite Hgoal. reflexivity. }
  exists goal. eexists. split; [exact Hgoal|]. split; [exact Hanchors|].
  split.
  - apply getLocalInterpolatedReferenceStates_of_anchors. exact Hanchors.
  - rewrite length_map, to_uint_small by lia.
    apply interpolate_length; simpl length; lia.
Qed.

Lemma getLocalInterpolatedReferenceStates_short_path_witness :
  exists goal states,
    at_index (poses Planar.two_poses) 1 = Some goal /\
    localAnchors Planar.far_away (Planar.parameters 10) Planar.two_poses 5
    = Some [se2_of_pose Planar.far_away; se2_of_pose goal] /\
    getLocalInterpolatedReferenceStates Planar.far_away
      (Planar.parameters 10) Planar.two_poses 5 = Some states /\
    Z.of_nat (length states) = N (Planar.parameters 10).
Proof.
  apply (getLocalInterpolatedReferenceStates_short_path Planar.far_away
           (Planar.parameters 10) Planar.two_poses 5 1).
  - vm_compute. reflexivity.
  - vm_compute. discriminate.
  - vm_compute. reflexivity.
Defined.

(** ** trimObstaclesToN: the obstacles that are dropped *)

Lemma StronglySorted_app_le {A : Type} (R : A -> A -> Prop) (l1 l2 : list A) :
  StronglySorted R (l1 ++ l2) ->
  forall a b, In a l1 -> In b l2 -> R a b.
Proof.
  induction l1 as [|c l1 IH]; intros Hs a b Ha Hb; [contradiction|].
  simpl in Hs. inversion Hs as [|c' l' Hs' Hall]; subst.
  destruct Ha as [<- | Ha].
  - rewrite Forall_forall in Hall. apply Hall. apply in_or_app. right. exact Hb.
  - apply IH; assumption.
Qed.

Lemma map_nth_iota {A : Type} (l : list A) (d : A) :
  map (fun a => nth (Z.to_nat a) l d) (iota (length l)) = l.
Proof.
  unfold iota. rewrite map_map.
  rewrite (map_ext (fun i => nth (Z.to_nat (Z.of_nat i)) l d)
                   (fun i => (fun a : A => a) (nth i l d)))
    by (intro i; rewrite Nat2Z.id; reflexivity).
  rewrite (map_nth_seq_firstn (fun a : A => a) d l (length l)) by lia.
  rewrite firstn_all. apply map_id.
Qed.

(** X9.  For a target count [0 <= K <= |L|] the function keeps [K] of
    the tracks of [L], each once: the returned list together with the
    tracks it drops is a rearrangement of [L], and no dropped track is
    closer to the robot than a kept one. *)
Theorem trimObstaclesToN_keeps_nearest
    {Quaternion : Type} `{C : Collaborators Quaternion}
    (L : list (Object Quaternion)) (robot : PoseStamped Quaternion) (K : Z) :
  0 <= K <= Z.of_nat (length L) ->
  K <= INT_MAX ->
  exists dropped,
    Permutation (trimObstaclesToN L robot K ++ dropped) L /\
    forall a b,
      In a (trimObstaclesToN L robot K) -> In b dropped ->
      (distance_to robot a <= distance_to robot b)%Q.
Proof.
  intros HK Hmax. unfold trimObstaclesToN, trim_run.
  assert (HKs : to_size_t K = K).
  { apply to_size_t_small. unfold_conversions. lia. }
  rewrite HKs.
  destruct (Z.ltb_spec (Z.of_nat (length L)) K) as [Hlt | _]; [lia|].
  unfold keep_nearest. cbn [trimmed_N_obstacles obstacle_tracks].
  set (sorted := sorted_indices (obstacle_distances L robot)).
  set (pick := fun a : Z => nth (Z.to_nat a) L default_object).
  assert (Hlen : length sorted = length L).
  { subst sorted. rewrite sorted_indices_length.
    unfold obstacle_distances. apply length_map. }
  assert (Hvalid : forall a, In a sorted -> 0 <= a < Z.of_nat (length L)).
  { intros a Ha. subst sorted. apply sorted_indices_In in Ha.
    unfold obstacle_distances in Ha. rewrite length_map in Ha. exact Ha. }
  assert (Hout : map (fun i => nth (Z.to_nat (nth i sorted 0)) L default_object)
                     (seq 0 (Z.to_nat K))
                 = map pick (firstn (Z.to_nat K) sorted)).
  { apply (map_nth_seq_firstn pick 0 sorted (Z.to_nat K)). lia. }
  rewrite Hout.
  exists (map pick (skipn (Z.to_nat K) sorted)). split.
  - rewrite <- map_app, firstn_skipn.
    apply perm_trans with (map pick (iota (length L))).
    + apply Permutation_map. subst sorted. unfold sorted_indices.
      unfold obstacle_distances at 2. rewrite length_map.
      apply std_sort_perm.
    + subst pick. rewrite map_nth_iota. apply Permutation_refl.
  - intros a b Ha Hb.
    apply in_map_iff in Ha. destruct Ha as [ia [<- Hia]].
    apply in_map_iff in Hb. destruct Hb as [ib [<- Hib]].
    assert (Hle : le_distance (obstacle_distances L robot) ia ib).
    { apply (StronglySorted_app_le _ (firstn (Z.to_nat K) sorted)
               (skipn (Z.to_nat K) sorted)); [|assumption|assumption].
      rewrite firstn_skipn. subst sorted. apply std_sort_sorted. }
    unfold le_distance in Hle.
    rewrite !distance_at_obstacle in Hle.
    + exact Hle.
    + apply Hvalid. rewrite <- (firstn_skipn (Z.to_nat K) sorted).
      apply in_or_app. right. exact Hib.
    + apply Hvalid. apply (firstn_In (Z.to_nat K)). exact Hia.
Qed.

Lemma trimObstaclesToN_keeps_nearest_witness :
  exists dropped,
    Permutation (trimObstaclesToN Planar.obstacles8 Planar.origin 4 ++ dropped)
      Planar.obstacles8 /\
    forall a b,
      In a (trimObstaclesToN Planar.obstacles8 Planar.origin 4) ->
      In b dropped ->
      (distance_to Planar.origin a <= distance_to Planar.origin b)%Q.
Proof.
  apply (trimObstaclesToN_keeps_nearest Planar.obstacles8 Planar.origin 4).
  - vm_compute. split; discriminate.
  - vm_compute. discriminate.
Defined.

(** ** regulateMaxSpeed: applying it again, and what it leaves alone *)

(** X10.  With [V_MIN <= V_MAX] a regulated twist is not changed by a
    second call. *)
Theorem regulateMaxSpeed_idempotent (computed_velocity : Twist)
    (mpc_parameters : Parameters) :
  (V_MIN mpc_parameters <= V_MAX mpc_parameters)%Q ->
  regulateMaxSpeed (regulateMaxSpeed computed_velocity mpc_parameters)
    mpc_parameters
  = regulateMaxSpeed computed_velocity mpc_parameters.
Proof.
  intro Hbounds.
  assert (Hself : forall q : Q, Qlt_bool q q = false).
  { intro q. apply Qlt_bool_false_iff. apply Qle_refl. }
  unfold regulateMaxSpeed at 2 3.
  destruct (Qlt_bool (V_MAX mpc_parameters) (vx (linear computed_velocity)))
    eqn:Hhigh.
  - unfold regulateMaxSpeed. cbn [set_linear_x linear vx].
    rewrite Hself.
    replace (Qlt_bool (V_MAX mpc_parameters) (V_MIN mpc_parameters))
      with false; [reflexivity|].
    symmetry. apply Qlt_bool_false_iff. exact Hbounds.
  - destruct (Qlt_bool (vx (linear computed_velocity)) (V_MIN mpc_parameters))
      eqn:Hlow.
    + unfold regulateMaxSpeed. cbn [set_linear_x linear vx].
      rewrite Hself.
      replace (Qlt_bool (V_MAX mpc_parameters) (V_MIN mpc_parameters))
        with false; [reflexivity|].
      symmetry. apply Qlt_bool_false_iff. exact Hbounds.
    + unfold regulateMaxSpeed. rewrite Hhigh, Hlow. reflexivity.
Qed.

Lemma regulateMaxSpeed_idempotent_witness :
  regulateMaxSpeed (regulateMaxSpeed Planar.fast_twist (Planar.parameters 10))
    (Planar.parameters 10)
  = regulateMaxSpeed Planar.fast_twist (Planar.parameters 10).
Proof.
  apply (regulateMaxSpeed_idempotent Planar.fast_twist (Planar.parameters 10)).
  vm_compute. discriminate.
Defined.

(** X11.  Whatever the bounds, the call changes nothing but the linear
    velocity along x, and that one only to [V_MAX] or to [V_MIN]; with
    bounds given in the wrong order ([V_MAX < V_MIN]) a velocity above
    [V_MAX] still becomes [V_MAX], below [V_MIN]. *)
Theorem regulateMaxSpeed_writes_linear_x_only (computed_velocity : Twist)
    (mpc_parameters : Parameters) :
  let out := regulateMaxSpeed computed_velocity mpc_parameters in
  vy (linear out) = vy (linear computed_velocity) /\
  vz (linear out) = vz (linear computed_velocity) /\
  angular out = angular computed_velocity /\
  (vx (linear out) = vx (linear computed_velocity) \/
   vx (linear out) = V_MAX mpc_parameters \/
   vx (linear out) = V_MIN mpc_parameters) /\
  ((V_MAX mpc_parameters < vx (linear computed_velocity))%Q ->
   vx (linear out) = V_MAX mpc_parameters).
Proof.
  cbv zeta. unfold regulateMaxSpeed.
  destruct (Qlt_bool (V_MAX mpc_parameters) (vx (linear computed_velocity)))
    eqn:Hhigh.
  - cbn [set_linear_x linear angular vx vy vz]. repeat split; auto.
  - apply Qlt_bool_false_iff in Hhigh.
    destruct (Qlt_bool (vx (linear computed_velocity)) (V_MIN mpc_parameters));
      cbn [set_linear_x linear angular vx vy vz]; repeat split; auto;
      intro Habs; exfalso; exact (Qlt_not_le _ _ Habs Hhigh).
Qed.

(** ** readjustGlobalPlanLocally: the run that recentres *)

Section RecenterLoopStates.

Context {Quaternion : Type} `{C : Collaborators Quaternion}.

Lemma skipn_nth_error_cons {A : Type} (l : list A) (n : nat) (a : A) :
  nth_error l n = Some a -> skipn n l = a :: skipn (S n) l.
Proof.
  revert l. induction n as [|n IH]; intros l Hn; destruct l as [|b l];
    try discriminate.
  - simpl in Hn. injection Hn as ->. reflexivity.
  - simpl in Hn. simpl. apply IH. exact Hn.
Qed.

Lemma skipn_after_assign {A : Type} (l : list A) (i : Z) (a : A) :
  0 <= i < Z.of_nat (length l) ->
  skipn (S (Z.to_nat i)) (assign l i a) = skipn (S (Z.to_nat i)) l.
Proof.
  intro Hi. unfold assign.
  assert (Hlen : length (firstn (Z.to_nat i) l) = Z.to_nat i).
  { rewrite length_firstn. lia. }
  rewrite skipn_app, Hlen.
  rewrite skipn_all2 by lia.
  replace (S (Z.to_nat i) - Z.to_nat i)%nat with 1%nat by lia.
  reflexivity.
Qed.

(** The states collected by the last loop are those of the recentred
    poses it visits, in the order of the path. *)
Lemma recenter_loop_states (center : PointXYZ) count :
  forall i (ps : list (PoseStamped Quaternion)) states ps' states',
    0 <= i -> i + Z.of_nat count <= Z.of_nat (length ps) ->
    recenter_loop count i center ps states = Some (ps', states') ->
    states'
    = states ++ map (fun p => state_of_pose (recenter center p))
                    (firstn count (skipn (Z.to_nat i) ps)).
Proof.
  induction count as [|count IH]; intros i ps states ps' states' Hi Hlen Hrun.
  - simpl in Hrun. injection Hrun as _ <-. simpl. rewrite app_nil_r.
    reflexivity.
  - cbn [recenter_loop] in Hrun.
    destruct (at_index ps i) as [p|] eqn:Hp; [|discriminate].
    cbn [obind] in Hrun.
    apply IH in Hrun; [| lia | rewrite assign_length by lia; lia].
    rewrite Hrun.
    replace (Z.to_nat (i + 1)) with (S (Z.to_nat i)) by lia.
    rewrite skipn_after_assign by lia.
    unfold at_index in Hp. destruct (Z.ltb_spec i 0); [lia|].
    rewrite (skipn_nth_error_cons ps (Z.to_nat i) p Hp).
    cbn [firstn map]. rewrite <- app_assoc. reflexivity.
Qed.

End RecenterLoopStates.

(** X14.  When the slice [nearest .. g] passes the alignment check, the
    call moves every pose of the slice onto the centroid of the cropped
    cloud in [y] and [z], and hands to the publisher one state per pose
    of the slice, in order: the recentred pose with its heading and a
    speed of 0. *)
Theorem readjustGlobalPlanLocally_recentres
    {Quaternion : Type} `{C : Collaborators Quaternion}
    (robot : PoseStamped Quaternion) (cloud : list PointXYZ)
    (traj : Path Quaternion) (iy iz : Q) (look g : Z)
    (s : list (PoseStamped Quaternion)) :
  path_size traj <= INT_MAX ->
  readjust_goal_index (path_size traj) (nearestStateIndex traj robot) look
    = Some g ->
  slice (poses traj) (nearestStateIndex traj robot) g = Some s ->
  existsb not_in_row s = false ->
  exists near goal r,
    at_index (poses traj) (nearestStateIndex traj robot) = Some near /\
    at_index (poses traj) g = Some goal /\
    readjustGlobalPlanLocally robot cloud traj iy iz look = Some r /\
    let centroid :=
      cropped_centroid (yaw_of (orientation (pose robot)))
        near goal iy iz cloud in
    readjusted_states r
    = Some (map (fun p => state_of_pose (recenter centroid p)) s) /\
    forall (j : nat) p,
      nearestStateIndex traj robot <= Z.of_nat j <= g ->
      nth_error (poses traj) j = Some p ->
      exists p',
        nth_error (poses (traj_after r)) j = Some p' /\
        (py (position (pose p')) == cy centroid)%Q /\
        (pz (position (pose p')) == cz centroid)%Q.
Proof.
  intros Hmax Hg Hs Hrow.
  destruct (readjust_outcome robot cloud traj iy iz look g s Hmax Hg Hs)
    as [[Habs _]
       | [_ [near [goal [ps' [states [Hnear [Hgoal [Hrun [_ Hnth]]]]]]]]]];
    [congruence|].
  pose proof (slice_inv _ _ _ _ Hs) as [Hn0 [Hng [Hgs Hslice]]].
  exists near, goal. eexists.
  split; [exact Hnear|]. split; [exact Hgoal|]. split; [exact Hrun|].
  cbv zeta. cbn [readjusted_states traj_after poses]. split.
  - f_equal.
    pose proof Hrun as Hrun'.
    unfold readjustGlobalPlanLocally in Hrun'.
    rewrite Hg in Hrun'. cbn [obind] in Hrun'.
    rewrite Hs in Hrun'. cbn [obind] in Hrun'.
    rewrite Hrow, Hnear, Hgoal in Hrun'. cbn [obind] in Hrun'.
    destruct (recenter_loop _ _ _ _ _) as [[ps0 states0]|] eqn:Eloop;
      [|discriminate].
    cbn [obind] in Hrun'. injection Hrun' as _ <-.
    apply recenter_loop_states in Eloop; [|lia|lia].
    rewrite Eloop, Hslice. reflexivity.
  - intros j p [Hlo Hhi] Hp. rewrite Hnth, Hp.
    destruct (Z.leb_spec (nearestStateIndex traj robot) (Z.of_nat j)); [|lia].
    destruct (Z.leb_spec (Z.of_nat j) g); [|lia].
    cbn [andb option_map]. eexists. split; [reflexivity|].
    apply recenter_onto_centroid.
Qed.

Lemma readjustGlobalPlanLocally_recentres_witness :
  exists near goal r,
    at_index (poses Planar.row4)
      (nearestStateIndex Planar.row4 Planar.row_start) = Some near /\
    at_index (poses Planar.row4) 3 = Some goal /\
    readjustGlobalPlanLocally Planar.row_start Planar.live_cloud Planar.row4
      (3 # 10) (3 # 10) 10 = Some r /\
    let centroid :=
      cropped_centroid (yaw_of (orientation (pose Planar.row_start)))
        near goal (3 # 10) (3 # 10) Planar.live_cloud in
    readjusted_states r
    = Some (map (fun p => state_of_pose (recenter centroid p))
                (poses Planar.row4)) /\
    forall (j : nat) p,
      nearestStateIndex Planar.row4 Planar.row_start <= Z.of_nat j <= 3 ->
      nth_error (poses Planar.row4) j = Some p ->
      exists p',
        nth_error (poses (traj_after r)) j = Some p' /\
        (py (position (pose p')) == cy centroid)%Q /\
        (pz (position (pose p')) == cz centroid)%Q.
Proof.
  apply (readjustGlobalPlanLocally_recentres Planar.row_start
           Planar.live_cloud Planar.row4 (3 # 10) (3 # 10) 10 3
           (poses Planar.row4)).
  - vm_compute. discriminate.
  - vm_compute. reflexivity.
  - vm_compute. reflexivity.
  - vm_compute. reflexivity.
Defined.

(** ** publishTrajStates *)

Section TrajMarkersFacts.

Context {Quaternion : Type} `{C : Collaborators Quaternion}.

Variable getMsgQuaternionfromRPY : Q -> Q -> Q -> Quaternion.
Variable clock_now : Z -> Z.

Lemma markers_from_nth states color ns :
  forall i (k : nat) s,
    nth_error states k = Some s ->
    nth_error (markers_from getMsgQuaternionfromRPY clock_now
                 states color ns i) k
    = Some (marker_of_state getMsgQuaternionfromRPY clock_now
              color ns (i + Z.of_nat k) s).
Proof.
  induction states as [|s0 rest IH]; intros i k s Hk.
  - destruct k; discriminate.
  - destruct k as [|k]; simpl in Hk.
    + injection Hk as ->. simpl. rewrite Z.add_0_r. reflexivity.
    + cbn [markers_from nth_error]. rewrite (IH (i + 1) k s Hk).
      f_equal. f_equal. lia.
Qed.

Lemma markers_from_length states color ns :
  forall i,
    length (markers_from getMsgQuaternionfromRPY clock_now states color ns i)
    = length states.
Proof.
  induction states as [|s0 rest IH]; intro i; simpl; [reflexivity|].
  f_equal. apply IH.
Qed.

End TrajMarkersFacts.

(** X15.  The marker array has one marker per state, in order; the
    marker of the state of index [k] has the identifier [k], the [x]
    and [y] of the state, and a height that is never zero: 1.3 for a
    state at height zero, the height of the state otherwise. *)
Theorem publishTrajStates_markers
    {Quaternion : Type} `{C : Collaborators Quaternion}
    (getMsgQuaternionfromRPY : Q -> Q -> Q -> Quaternion)
    (clock_now : Z -> Z)
    (states : list States) (color : ColorRGBA) (ns : string) :
  let markers :=
    publishTrajStates getMsgQuaternionfromRPY clock_now states color ns in
  length markers = length states /\
  forall (k : nat) s,
    nth_error states k = Some s ->
    exists m,
      nth_error markers k = Some m /\
      marker_id m = Z.of_nat k /\
      marker_ns m = ns /\ marker_color m = color /\
      px (position (marker_pose m)) = x s /\
      py (position (marker_pose m)) = y s /\
      orientation (marker_pose m) = getMsgQuaternionfromRPY 0%Q 0%Q (psi s) /\
      ~ (pz (position (marker_pose m)) == 0)%Q /\
      ((z s == 0)%Q -> pz (position (marker_pose m)) = (13 # 10)%Q) /\
      (~ (z s == 0)%Q -> pz (position (marker_pose m)) = z s).
Proof.
  cbv zeta. unfold publishTrajStates. split.
  - apply markers_from_length.
  - intros k s Hk. eexists. split.
    + apply markers_from_nth. exact Hk.
    + cbn [marker_of_state marker_id marker_ns marker_color marker_pose
             position orientation px py pz].
      split; [lia|]. repeat (split; [reflexivity|]).
      destruct (Qeq_bool (z s) 0) eqn:E.
      * apply Qeq_bool_iff in E. split; [|split].
        -- intro H13. vm_compute in H13. discriminate.
        -- intros _. reflexivity.
        -- intro Hnz. contradiction.
      * apply Qeq_bool_neq in E. split; [exact E|]. split.
        -- intro Hz. contradiction.
        -- intros _. reflexivity.
Qed.

(** X16.  The reference states returned by
    [getLocalInterpolatedReferenceStates] all have height zero, so each
    of their markers is drawn at the height 1.3. *)
Theorem publishTrajStates_of_reference_states
    {Quaternion : Type} `{C : Collaborators Quaternion}
    (getMsgQuaternionfromRPY : Q -> Q -> Q -> Quaternion)
    (clock_now : Z -> Z)
    (robot : PoseStamped Quaternion) (params : Parameters)
    (traj : Path Quaternion) (la : Q) (states : list States)
    (color : ColorRGBA) (ns : string) :
  getLocalInterpolatedReferenceStates robot params traj la = Some states ->
  Forall (fun m => pz (position (marker_pose m)) = (13 # 10)%Q)
         (publishTrajStates getMsgQuaternionfromRPY clock_now
            states color ns).
Proof.
  intro Hstates.
  assert (Hz : Forall (fun s => z s = 0%Q) states).
  { unfold getLocalInterpolatedReferenceStates in Hstates.
    apply obind_some in Hstates. destruct Hstates as [anchors [_ H]].
    injection H as <-.
    apply Forall_forall. intros s Hs.
    apply in_map_iff in Hs. destruct Hs as [s0 [<- _]]. reflexivity. }
  clear Hstates. unfold publishTrajStates. generalize 0 as i.
  induction Hz as [|s rest Hs _ IH]; intro i; cbn [markers_from].
  - constructor.
  - constructor.
    + cbn [marker_of_state marker_pose position pz]. rewrite Hs. reflexivity.
    + apply IH.
Qed.

Lemma publishTrajStates_of_reference_states_witness :
  exists states,
    getLocalInterpolatedReferenceStates Planar.origin (Planar.parameters 4)
      Planar.line11 5 = Some states /\
    Forall (fun m => pz (position (marker_pose m)) = (13 # 10)%Q)
           (publishTrajStates (fun _ _ yaw => yaw) (fun i => i) states
              {| color_r := 1; color_g := 1; color_b := 0; color_a := 1 |}
              "reference").
Proof.
  eexists. split.
  - vm_compute. reflexivity.
  - apply (publishTrajStates_of_reference_states (fun _ _ yaw => yaw)
             (fun i => i) Planar.origin (Planar.parameters 4)
             Planar.line11 5).
    vm_compute. reflexivity.
Defined.

(** ** The goal is never behind the nearest state *)

Section WindowDirection.

Context {Quaternion : Type} `{C : Collaborators Quaternion}.

Hypothesis distance_nonneg :
  forall a b : PoseStamped Quaternion,
    (0 <= getEuclidianDistBetweenPoses a b)%Q.

Lemma path_length_from_nonneg rest :
  forall prev acc, (0 <= acc)%Q -> (0 <= path_length_from prev rest acc)%Q.
Proof.
  induction rest as [|p rest IH]; intros prev acc Hacc; simpl.
  - exact Hacc.
  - apply IH.
    rewrite <- (Qplus_0_r 0).
    apply Qplus_le_compat; [exact Hacc | apply distance_nonneg].
Qed.

Lemma path_euclidian_length_nonneg ps : (0 <= path_euclidian_length ps)%Q.
Proof.
  destruct ps as [|p0 rest]; simpl.
  - apply Qle_refl.
  - apply path_length_from_nonneg. apply Qle_refl.
Qed.

Lemma Qtrunc_nonneg (q : Q) : (0 <= q)%Q -> 0 <= Qtrunc q.
Proof.
  intro Hq. rewrite (Qtrunc_nonneg_floor q Hq).
  change 0 with (Qfloor 0). apply Qfloor_resp_le. exact Hq.
Qed.

(** A look-ahead distance that is not negative gives a look-ahead
    count that is not negative. *)
Lemma states_to_see_horizon_nonneg traj la horizon :
  (0 <= la)%Q ->
  states_to_see_horizon traj la = Some horizon -> 0 <= horizon.
Proof.
  intros Hla Hh. unfold states_to_see_horizon in Hh.
  apply obind_some in Hh. destruct Hh as [step [Hs Hh]].
  apply obind_some in Hh. destruct Hh as [q [Hq Hh]].
  pose proof (interpolation_step_size_some traj step Hs) as Hsize.
  unfold interpolation_step_size in Hs.
  apply double_div_some in Hs. destruct Hs as [_ ->].
  apply double_div_some in Hq. destruct Hq as [_ ->].
  unfold double_to_int in Hh.
  destruct (in_int _); [|discriminate]. injection Hh as <-.
  apply Qtrunc_nonneg.
  unfold Qdiv. apply Qmult_le_0_compat; [exact Hla|].
  apply Qinv_le_0_compat.
  apply Qmult_le_0_compat; [apply path_euclidian_length_nonneg|].
  apply Qinv_le_0_compat.
  change 0%Q with (inject_Z 0). rewrite <- Zle_Qle. lia.
Qed.

End WindowDirection.

(** X17.  With a distance helper that is never negative and a
    look-ahead distance that is not negative, the local-goal index of a
    defined window is never behind the nearest-state index, and never
    past the last pose. *)
Theorem localGoalStateIndex_not_behind
    {Quaternion : Type} `{C : Collaborators Quaternion}
    (robot : PoseStamped Quaternion) (traj : Path Quaternion)
    (la : Q) (g : Z) :
  (forall a b : PoseStamped Quaternion,
     (0 <= getEuclidianDistBetweenPoses a b)%Q) ->
  (0 <= la)%Q ->
  path_size traj <= INT_MAX ->
  localGoalStateIndex (nearestStateIndex traj robot) traj la = Some g ->
  nearestStateIndex traj robot <= g <= path_size traj - 1.
Proof.
  intros Hdist Hla Hmax Hg.
  pose proof (nearestStateIndex_range traj robot) as Hn.
  pose proof (localGoalStateIndex_range _ _ _ _ Hmax Hg) as Hrange.
  apply localGoalStateIndex_some in Hg.
  destruct Hg as [step [horizon [Hs [_ [Hh [Hin ->]]]]]].
  pose proof (states_to_see_horizon_nonneg Hdist traj la horizon Hla Hh)
    as Hhor.
  pose proof (interpolation_step_size_some traj step Hs) as Hsize.
  destruct (clamp_to_last_cases (path_size traj)
              (nearestStateIndex traj robot + horizon))
    as [[Hr Hc] | [Hr Hc]]; [lia | exact Hin | |];
    rewrite Hc in *; lia.
Qed.

Lemma planar_distance_nonneg (a b : PoseStamped Planar.Heading) :
  (0 <= getEuclidianDistBetweenPoses a b)%Q.
Proof.
  unfold Qle. cbn.
  rewrite Z.mul_1_r.
  apply Z.sqrt_nonneg.
Qed.

Lemma localGoalStateIndex_not_behind_witness :
  nearestStateIndex Planar.line11 Planar.origin <= 5
  <= path_size Planar.line11 - 1.
Proof.
  apply (localGoalStateIndex_not_behind Planar.origin Planar.line11 5 5).
  - exact planar_distance_nonneg.
  - vm_compute. discriminate.
  - vm_compute. discriminate.
  - vm_compute. reflexivity.
Defined.
